(** * Feedback board API server: a shallow embedding of [src/server/index.js]

    The server is an Express application over a SQLite database with three
    tables ([feedback], [upvotes], [comments]).  Each route handler is
    embedded as a function in a small state monad over the database; the
    monad also records, as ghost state, the SQL statements a handler sends
    to the database, so that statements about which queries are issued, and
    in which order, can be phrased about the handlers themselves.

    Modelling conventions.
    - JavaScript strings are sequences of code units below 256, embedded as
      [string]; on that range [\s] is the seven characters of
      [is_js_space] and [toLowerCase] is [to_lower].
    - The value a handler reads from a JSON body field is [undefined] (the
      key is absent), [null], a boolean, a number, a string, an array or an
      object ([jsval]).  The numbers of the model are the 32-bit integers;
      fractional numbers and integers beyond 32 bits, which the database
      binding passes on as floating-point values, are outside the model.
    - [Number(req.params.id)] is taken as already evaluated: a route
      receives the resulting [number], which is [NaN] or an integer.
    - [CURRENT_TIMESTAMP] is read from the request environment: a handler
      that inserts a row receives the server clock [now] (seconds) as an
      argument.
    - A handler runs to completion before the next request is served. *)

From Stdlib Require Import ZArith Ascii String.
From stdpp Require Import gmap strings list sorting pretty.

(** ** JavaScript values *)

(** A 32-bit integer: the numbers that node-sqlite3 binds as INTEGER. *)
Record int32 := mk_int32 {
  int32_val : Z;
  int32_range :
    Is_true ((-2147483648 <=? int32_val)%Z && (int32_val <=? 2147483647)%Z)
}.

(** The value of a field of [req.body].  An array or an object is given by
    its string conversion [String(v)], which besides its type is all that
    the handlers read of it: [['a@b.c']] is [JObject "a@b.c"] and [{}] is
    [JObject "[object Object]"]; every string is the conversion of the
    one-element array that holds it. *)
Inductive jsval :=
| JUndefined
| JNull
| JBool (b : bool)
| JNum (n : int32)
| JStr (s : string)
| JObject (toString : string).

(** The value of [Number(req.params.id)]. *)
Inductive number :=
| NaN
| Num (z : Z).

(** [!!v] *)
Definition truthy (v : jsval) : bool :=
  match v with
  | JUndefined => false
  | JNull => false
  | JBool b => b
  | JNum n => negb (int32_val n =? 0)%Z
  | JStr s => negb (String.eqb s "")
  | JObject _ => true
  end.

(** [v !== undefined] *)
Definition defined (v : jsval) : bool :=
  match v with
  | JUndefined => false
  | _ => true
  end.

(** [!!feedbackId] for a number: [NaN] and [0] are falsy. *)
Definition truthy_number (n : number) : bool :=
  match n with
  | NaN => false
  | Num z => negb (z =? 0)%Z
  end.

(** [String(v)], the coercion [RegExp.prototype.test] applies to its
    argument. *)
Definition ToString (v : jsval) : string :=
  match v with
  | JUndefined => "undefined"
  | JNull => "null"
  | JBool true => "true"
  | JBool false => "false"
  | JNum n => pretty (int32_val n)
  | JStr s => s
  | JObject s => s
  end.

Definition to_lower_char (c : ascii) : ascii :=
  let n := nat_of_ascii c in
  if ((65 <=? n) && (n <=? 90))%nat then ascii_of_nat (n + 32)
  else if ((192 <=? n) && (n <=? 222) && negb (n =? 215))%nat
       then ascii_of_nat (n + 32)
       else c.

(** [s.toLowerCase()] *)
Fixpoint to_lower (s : string) : string :=
  match s with
  | EmptyString => EmptyString
  | String c s' => String (to_lower_char c) (to_lower s')
  end.

(** [hay.includes(needle)]: what an unanchored literal regular expression
    tests. *)
Fixpoint includes (needle hay : string) : bool :=
  String.prefix needle hay
  || match hay with
     | EmptyString => false
     | String _ hay' => includes needle hay'
     end.

(** ** Regular expressions

    A matcher by derivatives for the fragment the source uses: character
    classes, concatenation and [+]. *)

Module Regex.

Inductive re :=
| Void
| Eps
| Class (p : ascii → bool)
| Cat (r1 r2 : re)
| Alt (r1 r2 : re)
| Star (r : re).

Definition Plus (r : re) : re := Cat r (Star r).

Fixpoint nullable (r : re) : bool :=
  match r with
  | Void => false
  | Eps => true
  | Class _ => false
  | Cat r1 r2 => nullable r1 && nullable r2
  | Alt r1 r2 => nullable r1 || nullable r2
  | Star _ => true
  end.

Fixpoint deriv (c : ascii) (r : re) : re :=
  match r with
  | Void => Void
  | Eps => Void
  | Class p => if p c then Eps else Void
  | Cat r1 r2 =>
      if nullable r1
      then Alt (Cat (deriv c r1) r2) (deriv c r2)
      else Cat (deriv c r1) r2
  | Alt r1 r2 => Alt (deriv c r1) (deriv c r2)
  | Star r1 => Cat (deriv c r1) (Star r1)
  end.

(** Anchored match ([^r$]) of a whole string. *)
Fixpoint matches (r : re) (s : string) : bool :=
  match s with
  | EmptyString => nullable r
  | String c s' => matches (deriv c r) s'
  end.

(** The language of a regular expression. *)
Inductive lang : re → string → Prop :=
| lang_eps : lang Eps ""
| lang_class p c : p c = true → lang (Class p) (String c "")
| lang_cat r1 r2 s1 s2 : lang r1 s1 → lang r2 s2 → lang (Cat r1 r2) (s1 +:+ s2)
| lang_alt_l r1 r2 s : lang r1 s → lang (Alt r1 r2) s
| lang_alt_r r1 r2 s : lang r2 s → lang (Alt r1 r2) s
| lang_star_nil r : lang (Star r) ""
| lang_star_cons r s1 s2 : lang r s1 → lang (Star r) s2 → lang (Star r) (s1 +:+ s2).

End Regex.

(** [\s] on code units below 256: tab, line feed, vertical tab, form feed,
    carriage return, space and no-break space. *)
Definition is_js_space (c : ascii) : bool :=
  let n := nat_of_ascii c in
  ((9 <=? n) && (n <=? 13) || (n =? 32) || (n =? 160))%nat.

(** The class [[^\s@]]. *)
Definition not_space_at (c : ascii) : bool :=
  negb (is_js_space c || Ascii.eqb c "@").

Definition is_char (a c : ascii) : bool := Ascii.eqb c a.

Definition not_at (c : ascii) : bool := negb (Ascii.eqb c "@").

(** [/^[^\s@]+@[^\s@]+\.[^\s@]+$/] *)
Definition email_re : Regex.re :=
  Regex.Cat (Regex.Plus (Regex.Class not_space_at))
    (Regex.Cat (Regex.Class (is_char "@"))
       (Regex.Cat (Regex.Plus (Regex.Class not_space_at))
          (Regex.Cat (Regex.Class (is_char "."))
             (Regex.Plus (Regex.Class not_space_at))))).

Definition isValidEmail (email : jsval) : bool :=
  Regex.matches email_re (ToString email).


(** ** SQL values *)

Inductive sqlval :=
| SNull
| SInt (z : Z)
| SText (s : string).

(** The SQL value node-sqlite3 binds for a JavaScript parameter.  An
    [undefined] parameter is left unbound, which SQLite reads as NULL; no
    handler below binds one.  A boolean and a 32-bit integer are bound as
    INTEGER, a string as TEXT; an array or an object is bound as the TEXT
    [[object Object]], whatever its own string conversion is. *)
Definition bind (v : jsval) : sqlval :=
  match v with
  | JUndefined => SNull
  | JNull => SNull
  | JBool b => SInt (if b then 1 else 0)
  | JNum n => SInt (int32_val n)
  | JStr s => SText s
  | JObject _ => SText "[object Object]"
  end.

(** What a column of TEXT affinity stores for a value: integers are
    converted to text, NULL ([None]) stays NULL. *)
Definition text_affinity (v : sqlval) : option string :=
  match v with
  | SNull => None
  | SInt z => Some (pretty z)
  | SText s => Some s
  end.

(** The text a NOT NULL TEXT column holds for a body value that is not
    [undefined] or [null]: a string is stored as it is, an array or an
    object as [[object Object]]. *)
Definition stored_text (v : jsval) : string :=
  default "" (text_affinity (bind v)).

Inductive sqlite_error :=
| UniqueFailed (columns : string)
| NotNullFailed (column : string).

(** [err.message] *)
Definition message (e : sqlite_error) : string :=
  match e with
  | UniqueFailed cols => "SQLITE_CONSTRAINT: UNIQUE constraint failed: " +:+ cols
  | NotNullFailed col => "SQLITE_CONSTRAINT: NOT NULL constraint failed: " +:+ col
  end.

(** What a statement's callback receives: [err], or the statement's result. *)
Inductive result (A : Type) :=
| Err (err : sqlite_error)
| Ok (a : A).
Arguments Err {A} err.
Arguments Ok {A} a.

(** ** The schema *)

Module Feedback.
(** [feedback]: [title], [description], [user_email] are TEXT NOT NULL,
    [status] is a nullable TEXT with default ['Open']. *)
Record row := mk {
  id : Z;
  title : string;
  description : string;
  user_email : string;
  created_at : Z;
  status : option string
}.
End Feedback.

Module Upvote.
(** [upvotes], with UNIQUE (feedback_id, user_email). *)
Record row := mk {
  id : Z;
  feedback_id : Z;
  user_email : string
}.
End Upvote.

Module Comment.
(** [comments] *)
Record row := mk {
  id : Z;
  feedback_id : Z;
  user_email : string;
  comment_text : string;
  created_at : Z
}.
End Comment.

(** The database: the three tables, each in rowid order, and the
    [sqlite_sequence] counters that AUTOINCREMENT keeps. *)
Record db := mk_db {
  feedback : list Feedback.row;
  upvotes : list Upvote.row;
  comments : list Comment.row;
  seq_feedback : Z;
  seq_upvotes : Z;
  seq_comments : Z
}.

(** The database after the CREATE TABLE IF NOT EXISTS statements on a fresh
    file. *)
Definition empty_db : db := mk_db [] [] [] 0 0 0.

Definition max_id (ids : list Z) : Z := foldr Z.max 0%Z ids.

(** AUTOINCREMENT: one more than the largest rowid the table has ever
    held. *)
Definition next_rowid (seq : Z) (ids : list Z) : Z :=
  (Z.max seq (max_id ids) + 1)%Z.

(** ** SQL statements *)

Inductive column := ColTitle | ColDescription | ColStatus.

(** [orderClause] *)
Inductive order_clause :=
| CreatedDesc             (* f.created_at DESC *)
| UpvotesDescCreatedDesc. (* upvote_count DESC, f.created_at DESC *)

(** The statements of the source, with their bound parameters. *)
Inductive stmt :=
| SelectFeedbackJoined (order : order_clause)
| InsertFeedback (title description user_email : sqlval)
| SelectFeedbackById (id : Z)
| UpdateFeedback (sets : list (column * sqlval)) (id : Z)
| DeleteUpvotesOf (feedback_id : Z)
| DeleteCommentsOf (feedback_id : Z)
| DeleteFeedbackById (id : Z)
| InsertUpvote (feedback_id : Z) (user_email : sqlval)
| CountUpvotesOf (feedback_id : Z)
| InsertComment (feedback_id : Z) (user_email comment_text : sqlval)
| SelectCommentById (id : Z)
| SelectCommentsOf (feedback_id : Z).

(** Whether a statement reads or writes the [feedback] table. *)
Definition touches_feedback (s : stmt) : bool :=
  match s with
  | SelectFeedbackJoined _ | InsertFeedback _ _ _ | SelectFeedbackById _
  | UpdateFeedback _ _ | DeleteFeedbackById _ => true
  | _ => false
  end.

(** ** The state monad of a handler *)

Record world := mk_world {
  store : db;
  trace : list stmt   (* ghost: statements sent so far *)
}.

Definition M (A : Type) : Type := world → A * world.

Definition ret {A} (a : A) : M A := λ w, (a, w).

Definition bindM {A B} (c : M A) (k : A → M B) : M B :=
  λ w, let '(a, w') := c w in k a w'.

Notation "'let*' x ':=' c 'in' k" := (bindM c (λ x, k))
  (at level 10, x pattern, c at level 100, k at level 200).

(** Send statement [s]: record it and apply its effect [f] to the store. *)
Definition exec {A} (s : stmt) (f : db → A * db) : M A :=
  λ w, let '(a, d) := f (store w) in (a, mk_world d (trace w ++ [s])).

(** A row of the listing query. *)
Record FeedbackView := mk_view {
  item : Feedback.row;
  upvote_count : nat;
  comment_count : nat
}.

(** [SELECT feedback_id, COUNT( * ) ... GROUP BY feedback_id] *)
Definition group_count (ids : list Z) : gmap Z nat :=
  foldr (λ i m, <[i := S (default 0 (m !! i))]> m) ∅ ids.

(** [ORDER BY f.created_at DESC]: [a] may come before [b]. *)
Definition created_desc (a b : FeedbackView) : Prop :=
  (Feedback.created_at (item b) ≤ Feedback.created_at (item a))%Z.

(** [ORDER BY upvote_count DESC, f.created_at DESC] *)
Definition upvotes_desc_created_desc (a b : FeedbackView) : Prop :=
  upvote_count b < upvote_count a
  ∨ (upvote_count a = upvote_count b
     ∧ (Feedback.created_at (item b) ≤ Feedback.created_at (item a))%Z).

(** [ORDER BY created_at ASC] on comments. *)
Definition created_asc (a b : Comment.row) : Prop :=
  (Comment.created_at a ≤ Comment.created_at b)%Z.

Global Instance created_desc_dec : RelDecision created_desc.
Proof. intros a b. unfold created_desc. apply _. Defined.

Global Instance upvotes_desc_created_desc_dec : RelDecision upvotes_desc_created_desc.
Proof. intros a b. unfold upvotes_desc_created_desc. apply _. Defined.

Global Instance created_asc_dec : RelDecision created_asc.
Proof. intros a b. unfold created_asc. apply _. Defined.

(** ORDER BY: SQL fixes the order only up to ties; the embedding sorts the
    rows, taken in rowid order, with a merge sort. *)
Definition order_by (o : order_clause) (rows : list FeedbackView) : list FeedbackView :=
  match o with
  | CreatedDesc => merge_sort created_desc rows
  | UpvotesDescCreatedDesc => merge_sort upvotes_desc_created_desc rows
  end.

(** The two LEFT JOINs with COALESCE(count, 0). *)
Definition joined (d : db) : list FeedbackView :=
  let u := group_count (Upvote.feedback_id <$> upvotes d) in
  let c := group_count (Comment.feedback_id <$> comments d) in
  (λ f, mk_view f (default 0 (u !! Feedback.id f)) (default 0 (c !! Feedback.id f)))
    <$> feedback d.

(** ** The statements' effect on the database *)

(** [SELECT ... FROM feedback f LEFT JOIN ... ORDER BY ${orderClause}] *)
Definition select_feedback_joined (o : order_clause) (d : db)
  : result (list FeedbackView) * db :=
  (Ok (order_by o (joined d)), d).

(** [INSERT INTO feedback (title, description, user_email) VALUES (?, ?, ?)];
    the result is [this.lastID]. *)
Definition insert_feedback (now : Z) (title description user_email : sqlval) (d : db)
  : result Z * db :=
  match text_affinity title, text_affinity description, text_affinity user_email with
  | None, _, _ => (Err (NotNullFailed "feedback.title"), d)
  | _, None, _ => (Err (NotNullFailed "feedback.description"), d)
  | _, _, None => (Err (NotNullFailed "feedback.user_email"), d)
  | Some t, Some ds, Some e =>
      let id := next_rowid (seq_feedback d) (Feedback.id <$> feedback d) in
      (Ok id,
       mk_db (feedback d ++ [Feedback.mk id t ds e now (Some "Open")])
         (upvotes d) (comments d) id (seq_upvotes d) (seq_comments d))
  end.

(** [SELECT id, title, description, user_email, created_at, status FROM
    feedback WHERE id = ?], read with [db.get]: the first row, if any. *)
Definition select_feedback_by_id (id : Z) (d : db)
  : result (option Feedback.row) * db :=
  (Ok (head (filter (λ r, Feedback.id r = id) (feedback d))), d).

(** One [column = ?] assignment of an UPDATE. *)
Definition set_column (r : Feedback.row) (cv : column * sqlval) : result Feedback.row :=
  match cv with
  | (ColTitle, v) =>
      match text_affinity v with
      | None => Err (NotNullFailed "feedback.title")
      | Some t =>
          Ok (Feedback.mk (Feedback.id r) t (Feedback.description r)
                (Feedback.user_email r) (Feedback.created_at r) (Feedback.status r))
      end
  | (ColDescription, v) =>
      match text_affinity v with
      | None => Err (NotNullFailed "feedback.description")
      | Some ds =>
          Ok (Feedback.mk (Feedback.id r) (Feedback.title r) ds
                (Feedback.user_email r) (Feedback.created_at r) (Feedback.status r))
      end
  | (ColStatus, v) =>
      Ok (Feedback.mk (Feedback.id r) (Feedback.title r) (Feedback.description r)
            (Feedback.user_email r) (Feedback.created_at r) (text_affinity v))
  end.

Fixpoint set_columns (sets : list (column * sqlval)) (r : Feedback.row)
  : result Feedback.row :=
  match sets with
  | [] => Ok r
  | cv :: sets' =>
      match set_column r cv with
      | Err e => Err e
      | Ok r' => set_columns sets' r'
      end
  end.

(** The rows after the UPDATE and the number of rows it changed. *)
Fixpoint update_rows (sets : list (column * sqlval)) (id : Z) (rows : list Feedback.row)
  : result (list Feedback.row * nat) :=
  match rows with
  | [] => Ok ([], 0)
  | r :: rows' =>
      if decide (Feedback.id r = id) then
        match set_columns sets r with
        | Err e => Err e
        | Ok r' =>
            match update_rows sets id rows' with
            | Err e => Err e
            | Ok (rs, n) => Ok (r' :: rs, S n)
            end
        end
      else
        match update_rows sets id rows' with
        | Err e => Err e
        | Ok (rs, n) => Ok (r :: rs, n)
        end
  end.

(** [UPDATE feedback SET ${fields.join(', ')} WHERE id = ?]; a constraint
    failure aborts the statement and leaves the table as it was.  The result
    is [this.changes]. *)
Definition update_feedback (sets : list (column * sqlval)) (id : Z) (d : db)
  : result nat * db :=
  match update_rows sets id (feedback d) with
  | Err e => (Err e, d)
  | Ok (rows, n) =>
      (Ok n,
       mk_db rows (upvotes d) (comments d)
         (seq_feedback d) (seq_upvotes d) (seq_comments d))
  end.

(** [DELETE FROM upvotes WHERE feedback_id = ?]; the result is
    [this.changes]. *)
Definition delete_upvotes_of (fid : Z) (d : db) : result nat * db :=
  let kept := filter (λ r, Upvote.feedback_id r ≠ fid) (upvotes d) in
  (Ok (length (upvotes d) - length kept),
   mk_db (feedback d) kept (comments d)
     (seq_feedback d) (seq_upvotes d) (seq_comments d)).

(** [DELETE FROM comments WHERE feedback_id = ?] *)
Definition delete_comments_of (fid : Z) (d : db) : result nat * db :=
  let kept := filter (λ r, Comment.feedback_id r ≠ fid) (comments d) in
  (Ok (length (comments d) - length kept),
   mk_db (feedback d) (upvotes d) kept
     (seq_feedback d) (seq_upvotes d) (seq_comments d)).

(** [DELETE FROM feedback WHERE id = ?] *)
Definition delete_feedback_by_id (id : Z) (d : db) : result nat * db :=
  let kept := filter (λ r, Feedback.id r ≠ id) (feedback d) in
  (Ok (length (feedback d) - length kept),
   mk_db kept (upvotes d) (comments d)
     (seq_feedback d) (seq_upvotes d) (seq_comments d)).

(** The pair an upvote row holds, for UNIQUE (feedback_id, user_email). *)
Definition same_vote (fid : Z) (email : string) (r : Upvote.row) : Prop :=
  Upvote.feedback_id r = fid ∧ Upvote.user_email r = email.

Global Instance same_vote_dec fid email r : Decision (same_vote fid email r).
Proof. unfold same_vote. apply _. Defined.

(** [INSERT INTO upvotes (feedback_id, user_email) VALUES (?, ?)].  No
    foreign key is checked: SQLite enforces FOREIGN KEY clauses only under
    [PRAGMA foreign_keys = ON], which the source never issues. *)
Definition insert_upvote (fid : Z) (user_email : sqlval) (d : db) : result Z * db :=
  match text_affinity user_email with
  | None => (Err (NotNullFailed "upvotes.user_email"), d)
  | Some e =>
      if decide (Exists (same_vote fid e) (upvotes d)) then
        (Err (UniqueFailed "upvotes.feedback_id, upvotes.user_email"), d)
      else
        let id := next_rowid (seq_upvotes d) (Upvote.id <$> upvotes d) in
        (Ok id,
         mk_db (feedback d) (upvotes d ++ [Upvote.mk id fid e]) (comments d)
           (seq_feedback d) id (seq_comments d))
  end.

(** [SELECT COUNT( * ) AS upvote_count FROM upvotes WHERE feedback_id = ?] *)
Definition count_upvotes_of (fid : Z) (d : db) : result nat * db :=
  (Ok (length (filter (λ r, Upvote.feedback_id r = fid) (upvotes d))), d).

(** [INSERT INTO comments (feedback_id, user_email, comment_text) VALUES
    (?, ?, ?)] *)
Definition insert_comment (now : Z) (fid : Z) (user_email comment_text : sqlval) (d : db)
  : result Z * db :=
  match text_affinity user_email, text_affinity comment_text with
  | None, _ => (Err (NotNullFailed "comments.user_email"), d)
  | _, None => (Err (NotNullFailed "comments.comment_text"), d)
  | Some e, Some t =>
      let id := next_rowid (seq_comments d) (Comment.id <$> comments d) in
      (Ok id,
       mk_db (feedback d) (upvotes d) (comments d ++ [Comment.mk id fid e t now])
         (seq_feedback d) (seq_upvotes d) id)
  end.

(** [SELECT id, feedback_id, user_email, comment_text, created_at FROM
    comments WHERE id = ?], read with [db.get]. *)
Definition select_comment_by_id (id : Z) (d : db)
  : result (option Comment.row) * db :=
  (Ok (head (filter (λ r, Comment.id r = id) (comments d))), d).

(** [SELECT ... FROM comments WHERE feedback_id = ? ORDER BY created_at ASC] *)
Definition select_comments_of (fid : Z) (d : db)
  : result (list Comment.row) * db :=
  (Ok (merge_sort created_asc (filter (λ r, Comment.feedback_id r = fid) (comments d))), d).

(** [db.run], [db.get] and [db.all] on each statement. *)
Definition db_all_feedback (o : order_clause) : M (result (list FeedbackView)) :=
  exec (SelectFeedbackJoined o) (select_feedback_joined o).
Definition db_run_insert_feedback (now : Z) (t ds e : sqlval) : M (result Z) :=
  exec (InsertFeedback t ds e) (insert_feedback now t ds e).
Definition db_get_feedback (id : Z) : M (result (option Feedback.row)) :=
  exec (SelectFeedbackById id) (select_feedback_by_id id).
Definition db_run_update_feedback (sets : list (column * sqlval)) (id : Z) : M (result nat) :=
  exec (UpdateFeedback sets id) (update_feedback sets id).
Definition db_run_delete_upvotes (fid : Z) : M (result nat) :=
  exec (DeleteUpvotesOf fid) (delete_upvotes_of fid).
Definition db_run_delete_comments (fid : Z) : M (result nat) :=
  exec (DeleteCommentsOf fid) (delete_comments_of fid).
Definition db_run_delete_feedback (id : Z) : M (result nat) :=
  exec (DeleteFeedbackById id) (delete_feedback_by_id id).
Definition db_run_insert_upvote (fid : Z) (e : sqlval) : M (result Z) :=
  exec (InsertUpvote fid e) (insert_upvote fid e).
Definition db_get_upvote_count (fid : Z) : M (result nat) :=
  exec (CountUpvotesOf fid) (count_upvotes_of fid).
Definition db_run_insert_comment (now : Z) (fid : Z) (e t : sqlval) : M (result Z) :=
  exec (InsertComment fid e t) (insert_comment now fid e t).
Definition db_get_comment (id : Z) : M (result (option Comment.row)) :=
  exec (SelectCommentById id) (select_comment_by_id id).
Definition db_all_comments (fid : Z) : M (result (list Comment.row)) :=
  exec (SelectCommentsOf fid) (select_comments_of fid).

(** ** Responses *)

Inductive body :=
| Error (error : string)                      (* { error } *)
| OkTrue                                      (* { ok: true } *)
| FeedbackList (rows : list FeedbackView)
| CreatedFeedback (row : option Feedback.row) (upvote_count comment_count : nat)
                                              (* { ...row, upvote_count, comment_count } *)
| FeedbackRow (row : Feedback.row)
| Upvoted (message : string) (upvote_count : nat)
| CommentRow (row : option Comment.row)
| CommentList (rows : list Comment.row).

Record response := mk_response {
  status_code : nat;
  json : body
}.

(** [res.status(code).json(b)]; [res.json(b)] is [respond 200 b]. *)
Definition respond (code : nat) (b : body) : M response :=
  ret (mk_response code b).

(** ** The route handlers *)

(** [GET /api/feedback] *)
Definition get_api_feedback (query_sortBy : option string) : M response :=
  let sortBy :=
    to_lower (match query_sortBy with
              | None => "upvotes"
              | Some s => if String.eqb s "" then "upvotes" else s
              end) in
  let orderClause :=
    if String.eqb sortBy "newest" then CreatedDesc else UpvotesDescCreatedDesc in
  let* r := db_all_feedback orderClause in
  match r with
  | Err _ => respond 500 (Error "Failed to fetch feedback")
  | Ok rows => respond 200 (FeedbackList rows)
  end.

(** [POST /api/feedback] *)
Definition post_api_feedback (now : Z) (title description user_email : jsval)
  : M response :=
  if negb (truthy title) || negb (truthy description) || negb (truthy user_email) then
    respond 400 (Error "title, description, and user_email are required")
  else if negb (isValidEmail user_email) then
    respond 400 (Error "Invalid email format")
  else
    let* r := db_run_insert_feedback now (bind title) (bind description) (bind user_email) in
    match r with
    | Err _ => respond 500 (Error "Failed to create feedback")
    | Ok lastID =>
        let* g := db_get_feedback lastID in
        match g with
        | Err _ => respond 500 (Error "Failed to retrieve created feedback")
        | Ok row => respond 201 (CreatedFeedback row 0 0)
        end
    end.

(** [process.env.ADMIN_TOKEN || 'changeme'] *)
Definition ADMIN_TOKEN (env_ADMIN_TOKEN : option string) : string :=
  match env_ADMIN_TOKEN with
  | None => "changeme"
  | Some s => if String.eqb s "" then "changeme" else s
  end.

(** [requireAdmin]: [token] is [req.header('x-admin-token')], [next] the
    rest of the route. *)
Definition requireAdmin (env_ADMIN_TOKEN : option string) (token : option string)
    (next : M response) : M response :=
  match token with
  | None => respond 401 (Error "Unauthorized")
  | Some t =>
      if String.eqb t "" || negb (String.eqb t (ADMIN_TOKEN env_ADMIN_TOKEN)) then
        respond 401 (Error "Unauthorized")
      else next
  end.

Definition ALLOWED_STATUSES : list string :=
  ["Open"; "Planned"; "In Progress"; "Completed"].

(** [set.has(v)] for a set of strings: only a string can be a member. *)
Definition Set_has (set : list string) (v : jsval) : bool :=
  match v with
  | JStr s => bool_decide (s ∈ set)
  | _ => false
  end.

(** [Some z] when [feedbackId] is truthy, [None] when [!feedbackId]. *)
Definition valid_id (feedbackId : number) : option Z :=
  match feedbackId with
  | NaN => None
  | Num z => if (z =? 0)%Z then None else Some z
  end.

(** [fields] and [values] of the PUT handler, as one list of assignments. *)
Definition put_fields (title description status : jsval) : list (column * sqlval) :=
  (if defined title then [(ColTitle, bind title)] else [])
  ++ (if defined description then [(ColDescription, bind description)] else [])
  ++ (if defined status then [(ColStatus, bind status)] else []).

(** [PUT /api/feedback/:id], behind [requireAdmin]. *)
Definition put_feedback (feedbackId : number) (title description status : jsval)
  : M response :=
  match valid_id feedbackId with
  | None => respond 400 (Error "Valid feedback id is required")
  | Some id =>
      if defined status && negb (Set_has ALLOWED_STATUSES status) then
        respond 400 (Error "Invalid status value")
      else
        let fields := put_fields title description status in
        if (length fields =? 0)%nat then
          respond 400 (Error "No fields to update")
        else
          let* r := db_run_update_feedback fields id in
          match r with
          | Err _ => respond 500 (Error "Failed to update feedback")
          | Ok _ =>
              let* g := db_get_feedback id in
              match g with
              | Err _ | Ok None => respond 500 (Error "Failed to retrieve updated feedback")
              | Ok (Some row) => respond 200 (FeedbackRow row)
              end
          end
  end.

Definition put_api_feedback_id (env_ADMIN_TOKEN token : option string)
    (feedbackId : number) (title description status : jsval) : M response :=
  requireAdmin env_ADMIN_TOKEN token (put_feedback feedbackId title description status).

(** [GET /api/admin/verify] *)
Definition get_api_admin_verify (env_ADMIN_TOKEN token : option string) : M response :=
  requireAdmin env_ADMIN_TOKEN token (respond 200 OkTrue).

(** [DELETE /api/feedback/:id], behind [requireAdmin]. *)
Definition delete_feedback (feedbackId : number) : M response :=
  match valid_id feedbackId with
  | None => respond 400 (Error "Valid feedback id is required")
  | Some id =>
      let* r1 := db_run_delete_upvotes id in
      match r1 with
      | Err _ => respond 500 (Error "Failed to delete upvotes")
      | Ok _ =>
          let* r2 := db_run_delete_comments id in
          match r2 with
          | Err _ => respond 500 (Error "Failed to delete comments")
          | Ok _ =>
              let* r3 := db_run_delete_feedback id in
              match r3 with
              | Err _ => respond 500 (Error "Failed to delete feedback")
              | Ok changes =>
                  if (changes =? 0)%nat then respond 404 (Error "Feedback not found")
                  else respond 200 OkTrue
              end
          end
      end
  end.

Definition delete_api_feedback_id (env_ADMIN_TOKEN token : option string)
    (feedbackId : number) : M response :=
  requireAdmin env_ADMIN_TOKEN token (delete_feedback feedbackId).

(** The callback [function (err) { ... }] that the upvote route passes to
    the INSERT: [r] is what the INSERT hands it. *)
Definition upvote_inserted (feedbackId : Z) (r : result Z) : M response :=
  match r with
  | Err err =>
      if includes "UNIQUE constraint failed" (message err) then
        respond 409 (Error "User has already upvoted this feedback")
      else respond 500 (Error "Failed to upvote")
  | Ok _ =>
      let* c := db_get_upvote_count feedbackId in
      match c with
      | Err _ => respond 500 (Error "Failed to retrieve upvote count")
      | Ok n => respond 200 (Upvoted "Upvoted successfully" n)
      end
  end.

(** [POST /api/feedback/:id/upvote] *)
Definition post_api_feedback_id_upvote (feedbackId : number) (user_email : jsval)
  : M response :=
  match valid_id feedbackId with
  | None => respond 400 (Error "feedback id and user_email are required")
  | Some id =>
      if negb (truthy user_email) then
        respond 400 (Error "feedback id and user_email are required")
      else if negb (isValidEmail user_email) then
        respond 400 (Error "Invalid email format")
      else
        let* r := db_run_insert_upvote id (bind user_email) in
        upvote_inserted id r
  end.

(** [POST /api/feedback/:id/comments] *)
Definition post_api_feedback_id_comments (now : Z) (feedbackId : number)
    (user_email comment_text : jsval) : M response :=
  match valid_id feedbackId with
  | None => respond 400 (Error "feedback id, user_email, and comment_text are required")
  | Some id =>
      if negb (truthy user_email) || negb (truthy comment_text) then
        respond 400 (Error "feedback id, user_email, and comment_text are required")
      else if negb (isValidEmail user_email) then
        respond 400 (Error "Invalid email format")
      else
        let* r := db_run_insert_comment now id (bind user_email) (bind comment_text) in
        match r with
        | Err _ => respond 500 (Error "Failed to add comment")
        | Ok lastID =>
            let* g := db_get_comment lastID in
            match g with
            | Err _ => respond 500 (Error "Failed to retrieve created comment")
            | Ok row => respond 201 (CommentRow row)
            end
        end
  end.

(** [GET /api/feedback/:id/comments] *)
Definition get_api_feedback_id_comments (feedbackId : number) : M response :=
  match valid_id feedbackId with
  | None => respond 400 (Error "feedback id is required")
  | Some id =>
      let* r := db_all_comments id in
      match r with
      | Err _ => respond 500 (Error "Failed to fetch comments")
      | Ok rows => respond 200 (CommentList rows)
      end
  end.

(** ** The server as a transition system *)

Inductive request :=
| GET_feedback (sortBy : option string)
| POST_feedback (title description user_email : jsval)
| PUT_feedback_id (token : option string) (id : number) (title description status : jsval)
| GET_admin_verify (token : option string)
| DELETE_feedback_id (token : option string) (id : number)
| POST_feedback_id_upvote (id : number) (user_email : jsval)
| POST_feedback_id_comments (id : number) (user_email comment_text : jsval)
| GET_feedback_id_comments (id : number).

(** Route a request that arrives at server time [now]. *)
Definition handle (env_ADMIN_TOKEN : option string) (now : Z) (req : request)
  : M response :=
  match req with
  | GET_feedback sortBy => get_api_feedback sortBy
  | POST_feedback t d e => post_api_feedback now t d e
  | PUT_feedback_id tok id t d s => put_api_feedback_id env_ADMIN_TOKEN tok id t d s
  | GET_admin_verify tok => get_api_admin_verify env_ADMIN_TOKEN tok
  | DELETE_feedback_id tok id => delete_api_feedback_id env_ADMIN_TOKEN tok id
  | POST_feedback_id_upvote id e => post_api_feedback_id_upvote id e
  | POST_feedback_id_comments id e t => post_api_feedback_id_comments now id e t
  | GET_feedback_id_comments id => get_api_feedback_id_comments id
  end.

(** The database after serving a sequence of timed requests. *)
Fixpoint serve (env_ADMIN_TOKEN : option string) (reqs : list (Z * request)) (w : world)
  : world :=
  match reqs with
  | [] => w
  | (now, req) :: reqs' => serve env_ADMIN_TOKEN reqs' (handle env_ADMIN_TOKEN now req w).2
  end.

Definition initial : world := mk_world empty_db [].

(** A database state the server can reach from a fresh database file. *)
Definition reachable (env_ADMIN_TOKEN : option string) (d : db) : Prop :=
  ∃ reqs, store (serve env_ADMIN_TOKEN reqs initial) = d.

(** The data-model invariant on stored items: title and description are
    non-empty text. *)
Definition nonempty_text (d : db) : Prop :=
  Forall (λ r, Feedback.title r ≠ ""%string ∧ Feedback.description r ≠ ""%string)
    (feedback d).

(** ** The spec's words, for comparison with the code *)

(** Every character of [s] satisfies [p]. *)
Fixpoint all_chars (p : ascii → bool) (s : string) : bool :=
  match s with
  | EmptyString => true
  | String c s' => p c && all_chars p s'
  end.

(** A non-empty run of characters other than white space and [@]. *)
Definition atom (s : string) : Prop :=
  s ≠ ""%string ∧ all_chars not_space_at s = true.

(** The shape [local@domain.tld]: three such runs, joined by an [@] and a
    dot. *)
Definition email_shaped (s : string) : Prop :=
  ∃ local domain tld : string,
    s = local +:+ "@" +:+ domain +:+ "." +:+ tld
    ∧ atom local ∧ atom domain ∧ atom tld.

(** A request that carries the configured admin token. *)
Definition authorized (env_ADMIN_TOKEN token : option string) : Prop :=
  token = Some (ADMIN_TOKEN env_ADMIN_TOKEN).

(** The derived counts in the spec's words: the number of upvote rows and
    of comment rows that reference an item. *)
Definition upvotes_of (d : db) (fid : Z) : nat :=
  length (filter (λ r, Upvote.feedback_id r = fid) (upvotes d)).

Definition comments_of (d : db) (fid : Z) : list Comment.row :=
  filter (λ r, Comment.feedback_id r = fid) (comments d).

Definition counted (d : db) (f : Feedback.row) : FeedbackView :=
  mk_view f (upvotes_of d (Feedback.id f)) (length (comments_of d (Feedback.id f))).

(** The listing answers 200 with every stored item and its counts, in an
    order sorted by [R], after sending the joined SELECT with clause [o]. *)
Definition lists_sorted (sortBy : option string) (o : order_clause)
    (R : relation FeedbackView) (w : world) : Prop :=
  ∃ rows,
    get_api_feedback sortBy w
    = (mk_response 200 (FeedbackList rows),
       mk_world (store w) (trace w ++ [SelectFeedbackJoined o]))
    ∧ rows ≡ₚ counted (store w) <$> feedback (store w)
    ∧ StronglySorted R rows.

(** The patch of PUT in the spec's words: a supplied field replaces the
    stored one, a field that is not supplied keeps its value; the id, the
    submitter's email and the creation time are never touched. *)
Definition patch_text (v : jsval) (old : string) : string :=
  if defined v then default old (text_affinity (bind v)) else old.

Definition patch_status (v : jsval) (old : option string) : option string :=
  if defined v then text_affinity (bind v) else old.

Definition patched (title description status : jsval) (r : Feedback.row) : Feedback.row :=
  Feedback.mk (Feedback.id r)
    (patch_text title (Feedback.title r))
    (patch_text description (Feedback.description r))
    (Feedback.user_email r) (Feedback.created_at r)
    (patch_status status (Feedback.status r)).

(** The [feedback] table with the patch applied to the rows of id [z]. *)
Definition patched_table (z : Z) (title description status : jsval)
    (rows : list Feedback.row) : list Feedback.row :=
  (λ r, if decide (Feedback.id r = z) then patched title description status r else r)
    <$> rows.

(** What PUT leaves alone in a row [r] that becomes [r']: a row whose id is
    not the target is unchanged; the id, the submitter's email and the
    creation time are kept; so is every field that is not supplied. *)
Definition keeps_unsupplied (feedbackId : number) (title description status : jsval)
    (r r' : Feedback.row) : Prop :=
  (valid_id feedbackId ≠ Some (Feedback.id r) → r' = r)
  ∧ Feedback.id r' = Feedback.id r
  ∧ Feedback.user_email r' = Feedback.user_email r
  ∧ Feedback.created_at r' = Feedback.created_at r
  ∧ (defined title = false → Feedback.title r' = Feedback.title r)
  ∧ (defined description = false → Feedback.description r' = Feedback.description r)
  ∧ (defined status = false → Feedback.status r' = Feedback.status r).

(** A database with one item, as left by one valid submission at time 5. *)
Definition one_item : world :=
  mk_world
    (mk_db [Feedback.mk 1 "Dark mode" "Please add it" "ann@example.com" 5 (Some "Open")]
       [] [] 1 0 0)
    [].

(** What the email column of a row can hold: the text of a string that
    passed [isValidEmail], or the text [[object Object]] that the binding
    stores for an array or an object that passed it. *)
Definition stored_email (e : string) : Prop :=
  isValidEmail (JStr e) = true ∨ e = "[object Object]"%string.

(** ** The effects of a request on the database

    What one request can do to the database, as a relation between the
    database before and after; [handle_effect] shows that every handler
    stays within it. *)
Inductive effect (d : db) : db → Prop :=
| effect_none : effect d d
| effect_create (now : Z) (t ds e : string) :
    t ≠ ""%string → ds ≠ ""%string → stored_email e →
    let id := next_rowid (seq_feedback d) (Feedback.id <$> feedback d) in
    effect d
      (mk_db (feedback d ++ [Feedback.mk id t ds e now (Some "Open")])
         (upvotes d) (comments d) id (seq_upvotes d) (seq_comments d))
| effect_patch (z : Z) (title description status : jsval) :
    defined status && negb (Set_has ALLOWED_STATUSES status) = false →
    effect d
      (mk_db (patched_table z title description status (feedback d))
         (upvotes d) (comments d) (seq_feedback d) (seq_upvotes d) (seq_comments d))
| effect_delete (z : Z) :
    effect d
      (mk_db (filter (λ r, Feedback.id r ≠ z) (feedback d))
         (filter (λ r, Upvote.feedback_id r ≠ z) (upvotes d))
         (filter (λ r, Comment.feedback_id r ≠ z) (comments d))
         (seq_feedback d) (seq_upvotes d) (seq_comments d))
| effect_upvote (z : Z) (e : string) :
    z ≠ 0%Z → stored_email e →
    ¬ Exists (same_vote z e) (upvotes d) →
    let id := next_rowid (seq_upvotes d) (Upvote.id <$> upvotes d) in
    effect d
      (mk_db (feedback d) (upvotes d ++ [Upvote.mk id z e]) (comments d)
         (seq_feedback d) id (seq_comments d))
| effect_comment (now z : Z) (e t : string) :
    z ≠ 0%Z → stored_email e → t ≠ ""%string →
    let id := next_rowid (seq_comments d) (Comment.id <$> comments d) in
    effect d
      (mk_db (feedback d) (upvotes d) (comments d ++ [Comment.mk id z e t now])
         (seq_feedback d) (seq_upvotes d) id).

(** The pair that UNIQUE (feedback_id, user_email) constrains. *)
Definition vote_key (r : Upvote.row) : Z * string :=
  (Upvote.feedback_id r, Upvote.user_email r).

(** Row ids of a table, in rowid order: positive, strictly increasing and
    not above the table's [sqlite_sequence] counter. *)
Definition ids_ok (seq : Z) (ids : list Z) : Prop :=
  StronglySorted Z.lt ids ∧ Forall (λ i, (0 < i ≤ seq)%Z) ids.

Definition keys_ok (d : db) : Prop :=
  ids_ok (seq_feedback d) (Feedback.id <$> feedback d)
  ∧ ids_ok (seq_upvotes d) (Upvote.id <$> upvotes d)
  ∧ ids_ok (seq_comments d) (Comment.id <$> comments d).

(** The columns of a feedback row that no statement of the source assigns
    after the INSERT. *)
Definition frozen (r : Feedback.row) : Z * string * Z :=
  (Feedback.id r, Feedback.user_email r, Feedback.created_at r).

(** The number of occurrences of [a] in [s]. *)
Fixpoint count_char (a : ascii) (s : string) : nat :=
  match s with
  | EmptyString => 0
  | String c s' => (if Ascii.eqb c a then 1 else 0) + count_char a s'
  end.

Definition not_space (c : ascii) : bool := negb (is_js_space c).

(** A row of the listing with its comment count, or its upvote count, raised
    by one when the item has id [z]. *)
Definition bump_comments (z : Z) (v : FeedbackView) : FeedbackView :=
  if decide (Feedback.id (item v) = z)
  then mk_view (item v) (upvote_count v) (S (comment_count v))
  else v.

Definition bump_upvotes (z : Z) (v : FeedbackView) : FeedbackView :=
  if decide (Feedback.id (item v) = z)
  then mk_view (item v) (S (upvote_count v)) (comment_count v)
  else v.

(** ** The client ([src/client/src/App.jsx])

    The parts of the React component that decide what is sent to the server
    and how its answers are shown.  A handler of the component is embedded
    as the request it sends, if any ([None]: it returns before [fetch]).  An
    item id reaches the server through the URL as its decimal text, which
    [Number] reads back as the same integer. *)

Module Client.

(** [isValidEmail(value)]: the component's own copy of the check. *)
Definition isValidEmail (value : string) : bool := Regex.matches email_re value.

Fixpoint trim_start (s : string) : string :=
  match s with
  | EmptyString => EmptyString
  | String c s' => if is_js_space c then trim_start s' else s
  end.

Fixpoint trim_end (s : string) : string :=
  match s with
  | EmptyString => EmptyString
  | String c s' =>
      let r := trim_end s' in
      if is_js_space c && String.eqb r "" then EmptyString else String c r
  end.

(** [s.trim()] *)
Definition trim (s : string) : string := trim_end (trim_start s).

(** [submitFeedback], from the form's [title], [description] and [email]. *)
Definition submitFeedback (title description email : string) : option request :=
  if String.eqb (trim title) "" || String.eqb (trim description) ""
     || String.eqb (trim email) "" then None
  else if negb (isValidEmail email) then None
  else Some (POST_feedback (JStr title) (JStr description) (JStr email)).

(** [upvote(feedback)]; [voter] is what [window.prompt] returns, [None] for
    [null]. *)
Definition upvote (feedback_id : Z) (voter : option string) : option request :=
  match voter with
  | None => None
  | Some v =>
      if String.eqb v "" then None
      else if negb (isValidEmail v) then None
      else Some (POST_feedback_id_upvote (Num feedback_id) (JStr v))
  end.

(** [addComment]; [activeFeedback] is the id of the item whose comments are
    open, if any. *)
Definition addComment (activeFeedback : option Z) (commentEmail commentText : string)
  : option request :=
  match activeFeedback with
  | None => None
  | Some id =>
      if String.eqb (trim commentEmail) "" || String.eqb (trim commentText) "" then None
      else if negb (isValidEmail commentEmail) then None
      else Some (POST_feedback_id_comments (Num id) (JStr commentEmail) (JStr commentText))
  end.

(** [Array.prototype.sort] with a comparator: a stable sort.  The result of
    a stable sort is unique; the embedding computes it by insertion. *)
Fixpoint insert_stable {A} (cmp : A → A → Z) (x : A) (l : list A) : list A :=
  match l with
  | [] => [x]
  | y :: l' => if (0 <? cmp y x)%Z then x :: y :: l' else y :: insert_stable cmp x l'
  end.

Definition sort {A} (cmp : A → A → Z) (l : list A) : list A :=
  foldl (λ acc x, insert_stable cmp x acc) [] l.

(** [sortedFeedback] of the first variant of the component:
    [[...feedbackList].sort((a, b) => b.upvote_count - a.upvote_count)]. *)
Definition sortedFeedback (feedbackList : list FeedbackView) : list FeedbackView :=
  sort (λ a b, (Z.of_nat (upvote_count b) - Z.of_nat (upvote_count a))%Z) feedbackList.

(** [s.replace(from, to)] with a one-character string pattern: the first
    occurrence only. *)
Fixpoint replace_first (from to : ascii) (s : string) : string :=
  match s with
  | EmptyString => EmptyString
  | String c s' =>
      if Ascii.eqb c from then String to s' else String c (replace_first from to s')
  end.

(** The class of the status badge of an item, after [status-badge]. *)
Definition badge_class (status : option string) : string :=
  let shown :=
    match status with
    | None => "Open"
    | Some s => if String.eqb s "" then "Open" else s
    end in
  let key := replace_first " " "-" (to_lower shown) in
  if String.eqb key "open" then "status-open"
  else if String.eqb key "planned" then "status-planned"
  else if String.eqb key "in-progress" then "status-in-progress"
  else "status-completed".

End Client.

(** ** The first variant of the server

    The second half of [src/server/index.js] is the server before the
    status column, the admin routes and [sortBy] were added: the same five
    public routes over a [feedback] table without [status].  It is embedded
    on its own types; [upvotes] and [comments] have the rows of the current
    schema. *)

Module V1.

(** [feedback] of the first schema. *)
Record row := mk {
  id : Z;
  title : string;
  description : string;
  user_email : string;
  created_at : Z
}.

Record db := mk_db {
  feedback : list row;
  upvotes : list Upvote.row;
  comments : list Comment.row;
  seq_feedback : Z;
  seq_upvotes : Z;
  seq_comments : Z
}.

(** The statements of the first variant, with their bound parameters.
    The two SELECTs on [feedback] name the five columns of the first
    schema; the listing has the one ORDER BY clause. *)
Inductive stmt :=
| SelectFeedbackJoined
| InsertFeedback (title description user_email : sqlval)
| SelectFeedbackById (id : Z)
| InsertUpvote (feedback_id : Z) (user_email : sqlval)
| CountUpvotesOf (feedback_id : Z)
| InsertComment (feedback_id : Z) (user_email comment_text : sqlval)
| SelectCommentById (id : Z)
| SelectCommentsOf (feedback_id : Z).

Record world := mk_world {
  store : db;
  trace : list stmt
}.

Definition M (A : Type) : Type := world → A * world.

Definition ret {A} (a : A) : M A := λ w, (a, w).

Definition bindM {A B} (c : M A) (k : A → M B) : M B :=
  λ w, let '(a, w') := c w in k a w'.

Definition exec {A} (s : stmt) (f : db → A * db) : M A :=
  λ w, let '(a, d) := f (store w) in (a, mk_world d (trace w ++ [s])).

Record FeedbackView := mk_view {
  item : row;
  upvote_count : nat;
  comment_count : nat
}.

(** [ORDER BY upvote_count DESC, f.created_at DESC] *)
Definition upvotes_desc_created_desc (a b : FeedbackView) : Prop :=
  upvote_count b < upvote_count a
  ∨ (upvote_count a = upvote_count b ∧ (created_at (item b) ≤ created_at (item a))%Z).

Global Instance upvotes_desc_created_desc_dec : RelDecision upvotes_desc_created_desc.
Proof. intros a b. unfold upvotes_desc_created_desc. apply _. Defined.

Definition joined (d : db) : list FeedbackView :=
  let u := group_count (Upvote.feedback_id <$> upvotes d) in
  let c := group_count (Comment.feedback_id <$> comments d) in
  (λ f, mk_view f (default 0 (u !! id f)) (default 0 (c !! id f))) <$> feedback d.

Definition select_feedback_joined (d : db) : result (list FeedbackView) * db :=
  (Ok (merge_sort upvotes_desc_created_desc (joined d)), d).

Definition insert_feedback (now : Z) (title description user_email : sqlval) (d : db)
  : result Z * db :=
  match text_affinity title, text_affinity description, text_affinity user_email with
  | None, _, _ => (Err (NotNullFailed "feedback.title"), d)
  | _, None, _ => (Err (NotNullFailed "feedback.description"), d)
  | _, _, None => (Err (NotNullFailed "feedback.user_email"), d)
  | Some t, Some ds, Some e =>
      let i := next_rowid (seq_feedback d) (id <$> feedback d) in
      (Ok i,
       mk_db (feedback d ++ [mk i t ds e now]) (upvotes d) (comments d)
         i (seq_upvotes d) (seq_comments d))
  end.

Definition select_feedback_by_id (i : Z) (d : db) : result (option row) * db :=
  (Ok (head (filter (λ r, id r = i) (feedback d))), d).

Definition insert_upvote (fid : Z) (user_email : sqlval) (d : db) : result Z * db :=
  match text_affinity user_email with
  | None => (Err (NotNullFailed "upvotes.user_email"), d)
  | Some e =>
      if decide (Exists (same_vote fid e) (upvotes d)) then
        (Err (UniqueFailed "upvotes.feedback_id, upvotes.user_email"), d)
      else
        let i := next_rowid (seq_upvotes d) (Upvote.id <$> upvotes d) in
        (Ok i,
         mk_db (feedback d) (upvotes d ++ [Upvote.mk i fid e]) (comments d)
           (seq_feedback d) i (seq_comments d))
  end.

Definition count_upvotes_of (fid : Z) (d : db) : result nat * db :=
  (Ok (length (filter (λ r, Upvote.feedback_id r = fid) (upvotes d))), d).

Definition insert_comment (now : Z) (fid : Z) (user_email comment_text : sqlval) (d : db)
  : result Z * db :=
  match text_affinity user_email, text_affinity comment_text with
  | None, _ => (Err (NotNullFailed "comments.user_email"), d)
  | _, None => (Err (NotNullFailed "comments.comment_text"), d)
  | Some e, Some t =>
      let i := next_rowid (seq_comments d) (Comment.id <$> comments d) in
      (Ok i,
       mk_db (feedback d) (upvotes d) (comments d ++ [Comment.mk i fid e t now])
         (seq_feedback d) (seq_upvotes d) i)
  end.

Definition select_comment_by_id (i : Z) (d : db) : result (option Comment.row) * db :=
  (Ok (head (filter (λ r, Comment.id r = i) (comments d))), d).

Definition select_comments_of (fid : Z) (d : db) : result (list Comment.row) * db :=
  (Ok (merge_sort created_asc (filter (λ r, Comment.feedback_id r = fid) (comments d))), d).

Inductive body :=
| Error (error : string)
| FeedbackList (rows : list FeedbackView)
| CreatedFeedback (row : option row) (upvote_count comment_count : nat)
| Upvoted (message : string) (upvote_count : nat)
| CommentRow (row : option Comment.row)
| CommentList (rows : list Comment.row).

Record response := mk_response {
  status_code : nat;
  json : body
}.

Definition respond (code : nat) (b : body) : M response :=
  ret (mk_response code b).

(** [GET /api/feedback] *)
Definition get_api_feedback : M response :=
  bindM (exec SelectFeedbackJoined select_feedback_joined)
    (λ r,
       match r with
       | Err _ => respond 500 (Error "Failed to fetch feedback")
       | Ok rows => respond 200 (FeedbackList rows)
       end).

(** [POST /api/feedback] *)
Definition post_api_feedback (now : Z) (title description user_email : jsval)
  : M response :=
  if negb (truthy title) || negb (truthy description) || negb (truthy user_email) then
    respond 400 (Error "title, description, and user_email are required")
  else if negb (isValidEmail user_email) then
    respond 400 (Error "Invalid email format")
  else
    bindM (exec (InsertFeedback (bind title) (bind description) (bind user_email))
             (insert_feedback now (bind title) (bind description) (bind user_email)))
      (λ r,
         match r with
         | Err _ => respond 500 (Error "Failed to create feedback")
         | Ok lastID =>
             bindM (exec (SelectFeedbackById lastID) (select_feedback_by_id lastID))
               (λ g,
                  match g with
                  | Err _ => respond 500 (Error "Failed to retrieve created feedback")
                  | Ok row => respond 201 (CreatedFeedback row 0 0)
                  end)
         end).

(** [POST /api/feedback/:id/upvote] *)
Definition post_api_feedback_id_upvote (feedbackId : number) (user_email : jsval)
  : M response :=
  match valid_id feedbackId with
  | None => respond 400 (Error "feedback id and user_email are required")
  | Some i =>
      if negb (truthy user_email) then
        respond 400 (Error "feedback id and user_email are required")
      else if negb (isValidEmail user_email) then
        respond 400 (Error "Invalid email format")
      else
        bindM (exec (InsertUpvote i (bind user_email)) (insert_upvote i (bind user_email)))
          (λ r,
             match r with
             | Err err =>
                 if includes "UNIQUE constraint failed" (message err) then
                   respond 409 (Error "User has already upvoted this feedback")
                 else respond 500 (Error "Failed to upvote")
             | Ok _ =>
                 bindM (exec (CountUpvotesOf i) (count_upvotes_of i))
                   (λ c,
                      match c with
                      | Err _ => respond 500 (Error "Failed to retrieve upvote count")
                      | Ok n => respond 200 (Upvoted "Upvoted successfully" n)
                      end)
             end)
  end.

(** [POST /api/feedback/:id/comments] *)
Definition post_api_feedback_id_comments (now : Z) (feedbackId : number)
    (user_email comment_text : jsval) : M response :=
  match valid_id feedbackId with
  | None => respond 400 (Error "feedback id, user_email, and comment_text are required")
  | Some i =>
      if negb (truthy user_email) || negb (truthy comment_text) then
        respond 400 (Error "feedback id, user_email, and comment_text are required")
      else if negb (isValidEmail user_email) then
        respond 400 (Error "Invalid email format")
      else
        bindM (exec (InsertComment i (bind user_email) (bind comment_text))
                 (insert_comment now i (bind user_email) (bind comment_text)))
          (λ r,
             match r with
             | Err _ => respond 500 (Error "Failed to add comment")
             | Ok lastID =>
                 bindM (exec (SelectCommentById lastID) (select_comment_by_id lastID))
                   (λ g,
                      match g with
                      | Err _ => respond 500 (Error "Failed to retrieve created comment")
                      | Ok row => respond 201 (CommentRow row)
                      end)
             end)
  end.

(** [GET /api/feedback/:id/comments] *)
Definition get_api_feedback_id_comments (feedbackId : number) : M response :=
  match valid_id feedbackId with
  | None => respond 400 (Error "feedback id is required")
  | Some i =>
      bindM (exec (SelectCommentsOf i) (select_comments_of i))
        (λ r,
           match r with
           | Err _ => respond 500 (Error "Failed to fetch comments")
           | Ok rows => respond 200 (CommentList rows)
           end)
  end.

Inductive request :=
| GET_feedback
| POST_feedback (title description user_email : jsval)
| POST_feedback_id_upvote (id : number) (user_email : jsval)
| POST_feedback_id_comments (id : number) (user_email comment_text : jsval)
| GET_feedback_id_comments (id : number).

Definition handle (now : Z) (req : request) : M response :=
  match req with
  | GET_feedback => get_api_feedback
  | POST_feedback t d e => post_api_feedback now t d e
  | POST_feedback_id_upvote i e => post_api_feedback_id_upvote i e
  | POST_feedback_id_comments i e t => post_api_feedback_id_comments now i e t
  | GET_feedback_id_comments i => get_api_feedback_id_comments i
  end.

End V1.

(** The current server seen by a client of the first variant: the same
    request with no [sortBy], on the same data without the [status] column,
    and the answer without the [status] field. *)
Definition upgrade (req : V1.request) : request :=
  match req with
  | V1.GET_feedback => GET_feedback None
  | V1.POST_feedback t d e => POST_feedback t d e
  | V1.POST_feedback_id_upvote i e => POST_feedback_id_upvote i e
  | V1.POST_feedback_id_comments i e t => POST_feedback_id_comments i e t
  | V1.GET_feedback_id_comments i => GET_feedback_id_comments i
  end.

Definition forget_row (r : Feedback.row) : V1.row :=
  V1.mk (Feedback.id r) (Feedback.title r) (Feedback.description r)
    (Feedback.user_email r) (Feedback.created_at r).

Definition forget_view (v : FeedbackView) : V1.FeedbackView :=
  V1.mk_view (forget_row (item v)) (upvote_count v) (comment_count v).

Definition forget_db (d : db) : V1.db :=
  V1.mk_db (forget_row <$> feedback d) (upvotes d) (comments d)
    (seq_feedback d) (seq_upvotes d) (seq_comments d).

(** The statement of the current server that took the place of a statement
    of the first variant: the same statement, except that the two SELECTs on
    [feedback] now also read the [status] column. *)
Definition upgrade_stmt (s : V1.stmt) : stmt :=
  match s with
  | V1.SelectFeedbackJoined => SelectFeedbackJoined UpvotesDescCreatedDesc
  | V1.InsertFeedback t d e => InsertFeedback t d e
  | V1.SelectFeedbackById i => SelectFeedbackById i
  | V1.InsertUpvote i e => InsertUpvote i e
  | V1.CountUpvotesOf i => CountUpvotesOf i
  | V1.InsertComment i e t => InsertComment i e t
  | V1.SelectCommentById i => SelectCommentById i
  | V1.SelectCommentsOf i => SelectCommentsOf i
  end.

(** A state of the first variant and a state of the current server that
    hold the same data, the current one with a [status] besides, after
    corresponding statements. *)
Definition simulates (w1 : V1.world) (w : world) : Prop :=
  V1.store w1 = forget_db (store w) ∧ upgrade_stmt <$> V1.trace w1 = trace w.

(** The answer without [status]; [None] for the answers of the routes the
    first variant does not have. *)
Definition forget_response (r : response) : option V1.response :=
  match json r with
  | Error e => Some (V1.mk_response (status_code r) (V1.Error e))
  | FeedbackList rows =>
      Some (V1.mk_response (status_code r) (V1.FeedbackList (forget_view <$> rows)))
  | CreatedFeedback row u c =>
      Some (V1.mk_response (status_code r) (V1.CreatedFeedback (forget_row <$> row) u c))
  | Upvoted m n => Some (V1.mk_response (status_code r) (V1.Upvoted m n))
  | CommentRow row => Some (V1.mk_response (status_code r) (V1.CommentRow row))
  | CommentList rows => Some (V1.mk_response (status_code r) (V1.CommentList rows))
  | OkTrue | FeedbackRow _ => None
  end.

(** A map over the stack of runs that merge sort keeps. *)
Definition stack_map {A B : Type} (f : A → B) (st : list (option (list A)))
  : list (option (list B)) :=
  list_fmap (option (list A)) (option (list B))
    (λ o, match o with Some k => Some (list_fmap A B f k) | None => None end) st.

(** * Properties *)

(** ** Strings and regular expressions *)

Section RegexFacts.
Import Regex.

Lemma append_cons c (s t : string) : String c s +:+ t = String c (s +:+ t).
Proof. reflexivity. Qed.

Lemma append_nil_l (s : string) : "" +:+ s = s.
Proof. reflexivity. Qed.

Lemma append_eq_nil (s t : string) : s +:+ t = ""%string → s = ""%string ∧ t = ""%string.
Proof.
  destruct s; [by rewrite append_nil_l|]. rewrite append_cons. discriminate.
Qed.

Lemma append_eq_cons (s t : string) c u :
  s +:+ t = String c u →
  (s = ""%string ∧ t = String c u) ∨ (∃ s', s = String c s' ∧ u = s' +:+ t).
Proof.
  destruct s as [|c' s']; [rewrite append_nil_l; by left|].
  rewrite append_cons. intros H. right. exists s'. by inversion H.
Qed.

Lemma nullable_lang r : nullable r = true ↔ lang r "".
Proof.
  split.
  - induction r; simpl; intros H; try discriminate.
    + constructor.
    + apply andb_true_iff in H as [H1 H2].
      change (lang (Cat r1 r2) ("" +:+ "")). constructor; auto.
    + apply orb_true_iff in H as [H|H]; [apply lang_alt_l|apply lang_alt_r]; auto.
    + constructor.
  - intros H. remember ""%string as s eqn:Hs.
    induction H; simpl; try done.
    + apply append_eq_nil in Hs as [-> ->]. by rewrite IHlang1, IHlang2.
    + by rewrite IHlang.
    + rewrite IHlang; [|done]. apply orb_true_r.
Qed.

Lemma lang_star_cons_inv r c s :
  lang (Star r) (String c s) →
  ∃ s1 s2, s = s1 +:+ s2 ∧ lang r (String c s1) ∧ lang (Star r) s2.
Proof.
  intros H. remember (Star r) as r' eqn:Hr. remember (String c s) as t eqn:Ht.
  revert Hr Ht.
  induction H as [| | | | | |r0 s1 s2 H1 _ H2 IH2]; intros Hr Ht; try discriminate.
  inversion Hr; subst r0.
  apply append_eq_cons in Ht as [[-> ->]|(s1' & -> & ->)].
  - by apply IH2.
  - eauto.
Qed.

Lemma deriv_lang c r s : lang (deriv c r) s ↔ lang r (String c s).
Proof.
  revert s. induction r as [| |p|r1 IH1 r2 IH2|r1 IH1 r2 IH2|r IH]; intros s; simpl.
  - split; inversion 1.
  - split; inversion 1.
  - destruct (p c) eqn:Hp; split; inversion 1; subst.
    + by constructor.
    + constructor.
    + congruence.
  - assert (lang (Cat (deriv c r1) r2) s → lang (Cat r1 r2) (String c s)) as Hl.
    { inversion 1 as [| |? ? s1 s2 H1 H2| | | |]; subst.
      apply IH1 in H1. change (lang (Cat r1 r2) (String c s1 +:+ s2)).
      by constructor. }
    assert (lang (Cat r1 r2) (String c s) →
            lang (Cat (deriv c r1) r2) s ∨ (lang r1 "" ∧ lang r2 (String c s))) as Hr.
    { inversion 1 as [| |? ? s1 s2 H1 H2 [E1 E2] E3| | | |]; subst.
      apply append_eq_cons in E3 as [[-> ->]|(s1' & -> & ->)].
      - by right.
      - left. constructor; [by apply IH1|done]. }
    destruct (nullable r1) eqn:Hn.
    + split.
      * inversion 1; subst; [by apply Hl|].
        change (lang (Cat r1 r2) ("" +:+ String c s)).
        constructor; [by apply nullable_lang|by apply IH2].
      * intros H. destruct (Hr H) as [?|[_ ?]];
          [by apply lang_alt_l|apply lang_alt_r; by apply IH2].
    + split; [done|]. intros H. destruct (Hr H) as [?|[Hnil _]]; [done|].
      apply nullable_lang in Hnil. congruence.
  - split.
    + inversion 1; subst; [apply lang_alt_l; by apply IH1|apply lang_alt_r; by apply IH2].
    + inversion 1; subst; [apply lang_alt_l; by apply IH1|apply lang_alt_r; by apply IH2].
  - split.
    + inversion 1 as [| |? ? s1 s2 H1 H2| | | |]; subst.
      apply IH in H1. change (lang (Star r) (String c s1 +:+ s2)).
      by constructor.
    + intros H. apply lang_star_cons_inv in H as (s1 & s2 & -> & H1 & H2).
      constructor; [by apply IH|done].
Qed.

(** The matcher decides the language of the expression. *)
Lemma matches_lang r s : matches r s = true ↔ lang r s.
Proof.
  revert r. induction s as [|c s IH]; intros r; simpl.
  - apply nullable_lang.
  - rewrite IH. apply deriv_lang.
Qed.

Lemma lang_star_class p s : lang (Star (Class p)) s ↔ all_chars p s = true.
Proof.
  split.
  - intros H. remember (Star (Class p)) as r eqn:Hr. revert Hr.
    induction H as [| | | | | |r0 s1 s2 H1 _ H2 IH2]; intros Hr; try discriminate; [done|].
    inversion Hr; subst r0. inversion H1; subst. cbn.
    apply andb_true_iff. split; [done|by apply IH2].
  - induction s as [|c s IH]; simpl; intros H; [constructor|].
    apply andb_true_iff in H as [Hc Hs].
    change (lang (Star (Class p)) (String c "" +:+ s)).
    constructor; [by constructor|by apply IH].
Qed.

Lemma lang_plus_class p s :
  lang (Plus (Class p)) s ↔ s ≠ ""%string ∧ all_chars p s = true.
Proof.
  unfold Plus. split.
  - inversion 1 as [| |? ? s1 s2 H1 H2| | | |]; subst.
    inversion H1; subst. apply lang_star_class in H2. cbn.
    split; [done|]. by apply andb_true_iff.
  - intros [Hne H]. destruct s as [|c s]; [done|]. simpl in H.
    apply andb_true_iff in H as [Hc Hs].
    change (lang (Cat (Class p) (Star (Class p))) (String c "" +:+ s)).
    constructor; [by constructor|by apply lang_star_class].
Qed.

Lemma lang_char a s : lang (Class (is_char a)) s ↔ s = String a "".
Proof.
  split.
  - inversion 1 as [|? c Hc| | | | |]; subst. unfold is_char in Hc.
    apply Ascii.eqb_eq in Hc. by subst.
  - intros ->. constructor. unfold is_char. apply Ascii.eqb_refl.
Qed.

End RegexFacts.

(** [isValidEmail] accepts exactly the strings of the shape
    [local@domain.tld]. *)
Lemma isValidEmail_shape (s : string) :
  isValidEmail (JStr s) = true ↔ email_shaped s.
Proof.
  unfold isValidEmail, email_shaped, atom, email_re. simpl ToString.
  rewrite matches_lang. split.
  - inversion 1 as [| |? ? a s1 Ha H1| | | |]; subst.
    inversion H1 as [| |? ? at_ s2 Hat H2| | | |]; subst.
    inversion H2 as [| |? ? b s3 Hb H3| | | |]; subst.
    inversion H3 as [| |? ? dot c Hdot Hc| | | |]; subst.
    apply lang_char in Hat as ->. apply lang_char in Hdot as ->.
    apply lang_plus_class in Ha, Hb, Hc.
    exists a, b, c. done.
  - intros (a & b & c & -> & Ha & Hb & Hc).
    repeat (constructor; [by first [apply lang_plus_class|apply lang_char]|]).
    by apply lang_plus_class.
Qed.

(** The texts of [undefined], [null], booleans and numbers contain no
    [@]: a value the check accepts is a string, or an array or object whose
    string conversion has the shape. *)

Lemma all_chars_app (p : ascii → bool) (s t : string) :
  all_chars p (s +:+ t) = all_chars p s && all_chars p t.
Proof.
  induction s as [|c s IH]; [done|].
  rewrite append_cons. simpl. by rewrite IH, andb_assoc.
Qed.

Lemma email_shaped_has_at (s : string) : email_shaped s → all_chars not_at s = false.
Proof.
  intros (a & b & c & -> & _). rewrite all_chars_app.
  apply andb_false_iff. by right.
Qed.

Lemma pretty_N_char_not_at (x : N) : not_at (pretty_N_char x) = true.
Proof. unfold pretty_N_char. by repeat case_match. Qed.

Lemma pretty_N_go_not_at (x : N) (s : string) :
  all_chars not_at s = true → all_chars not_at (pretty_N_go x s) = true.
Proof.
  revert s. induction (N.lt_wf_0 x) as [x _ IH]; intros s Hs.
  destruct (decide (x = 0)%N) as [->|Hx]; [by rewrite pretty_N_go_0|].
  rewrite pretty_N_go_step by lia. apply IH; [apply N.div_lt; lia|].
  simpl. by rewrite pretty_N_char_not_at.
Qed.

Lemma pretty_N_not_at (x : N) : all_chars not_at (pretty x) = true.
Proof.
  unfold pretty, pretty_N. destruct (decide (x = 0)%N); [done|].
  by apply pretty_N_go_not_at.
Qed.

Lemma pretty_Z_not_at (z : Z) : all_chars not_at (pretty z) = true.
Proof.
  destruct z as [|p|p]; [done|apply (pretty_N_not_at (Npos p))|].
  change (pretty (Z.neg p)) with ("-" +:+ pretty (Npos p)).
  rewrite all_chars_app. by rewrite (pretty_N_not_at (Npos p)).
Qed.

Lemma isValidEmail_cases (v : jsval) :
  isValidEmail v = true →
  (∃ e, v = JStr e) ∨ (∃ s, v = JObject s ∧ isValidEmail (JStr s) = true).
Proof.
  destruct v as [| |[]|n|e|s]; try discriminate; [|by eauto|by eauto].
  intros H. apply (isValidEmail_shape (pretty (int32_val n))), email_shaped_has_at in H.
  by rewrite pretty_Z_not_at in H.
Qed.

(** A value the check accepts is truthy, and the database stores a text for
    it: the value itself when it is a string, [[object Object]] otherwise. *)
Lemma isValidEmail_stored (v : jsval) :
  isValidEmail v = true →
  truthy v = true
  ∧ bind v = SText (stored_text v)
  ∧ stored_email (stored_text v).
Proof.
  intros H. destruct (isValidEmail_cases v H) as [[e ->]|(s & -> & Hs)].
  - split; [by destruct e|]. split; [done|]. by left.
  - split; [done|]. split; [done|]. by right.
Qed.

Example isValidEmail_accepts_array : isValidEmail (JObject "b@x.io") = true.
Proof. reflexivity. Qed.

Example stored_text_array : stored_text (JObject "b@x.io") = "[object Object]"%string.
Proof. reflexivity. Qed.

Example isValidEmail_accepts : isValidEmail (JStr "ann@example.com") = true.
Proof. reflexivity. Qed.

Example isValidEmail_rejects_no_at : isValidEmail (JStr "not-an-email") = false.
Proof. reflexivity. Qed.

Example isValidEmail_rejects_space : isValidEmail (JStr "a b@c.d") = false.
Proof. reflexivity. Qed.

Example isValidEmail_rejects_no_dot : isValidEmail (JStr "ann@example") = false.
Proof. reflexivity. Qed.

Example unique_message_detected :
  includes "UNIQUE constraint failed"
    (message (UniqueFailed "upvotes.feedback_id, upvotes.user_email")) = true
  ∧ includes "UNIQUE constraint failed" (message (NotNullFailed "upvotes.user_email")) = false.
Proof. by vm_compute. Qed.

(** ** Tables, row ids and counts *)

Lemma max_id_ge (ids : list Z) x : x ∈ ids → (x ≤ max_id ids)%Z.
Proof.
  induction ids as [|y ids IH]; [by intros ?%elem_of_nil|].
  intros [->|Hin]%elem_of_cons; simpl; [lia|]. specialize (IH Hin). lia.
Qed.

(** AUTOINCREMENT hands out a row id that no row of the table has. *)
Lemma next_rowid_fresh (seq : Z) (ids : list Z) : next_rowid seq ids ∉ ids.
Proof. intros Hin%max_id_ge. unfold next_rowid in Hin. lia. Qed.

Lemma filter_fresh {A} (key : A → Z) (l : list A) (z : Z) :
  z ∉ key <$> l → filter (λ r, key r = z) l = [].
Proof.
  induction l as [|a l IH]; [done|]. rewrite fmap_cons, not_elem_of_cons.
  intros [Hne Hl]. rewrite filter_cons_False by congruence. by apply IH.
Qed.

(** GROUP BY with COUNT, then COALESCE(count, 0), counts the rows that carry the key. *)
Lemma group_count_fmap {A} (key : A → Z) (l : list A) (i : Z) :
  default 0 (group_count (key <$> l) !! i) = length (filter (λ r, key r = i) l).
Proof.
  induction l as [|a l IH]; [done|].
  rewrite fmap_cons. unfold group_count in *. simpl foldr.
  rewrite lookup_insert. destruct (decide (key a = i)) as [Heq|Hne].
  - rewrite filter_cons_True by done. simpl. rewrite <- IH. by rewrite Heq.
  - rewrite filter_cons_False by done. apply IH.
Qed.

(** The joined query computes the counts of the data model. *)
Lemma joined_counted (d : db) : joined d = counted d <$> feedback d.
Proof.
  unfold joined, counted, upvotes_of, comments_of.
  apply list_fmap_ext. intros _ f _. by rewrite !group_count_fmap.
Qed.

Lemma length_filter_all {A} (P : A → Prop) `{!∀ x, Decision (P x)} (l : list A) :
  Forall P l → length l - length (filter P l) = 0.
Proof.
  induction 1 as [|a l Ha _ IH]; [done|]. rewrite filter_cons_True by done.
  simpl. lia.
Qed.

Lemma length_filter_some {A} (P : A → Prop) `{!∀ x, Decision (P x)} (l : list A) :
  Exists (λ x, ¬ P x) l → length l - length (filter P l) ≠ 0.
Proof.
  induction 1 as [a l Ha|a l _ IH].
  - rewrite filter_cons_False by done. pose proof (length_filter P l). simpl. lia.
  - destruct (decide (P a)).
    + rewrite filter_cons_True by done. simpl. lia.
    + rewrite filter_cons_False by done. pose proof (length_filter P l). simpl. lia.
Qed.

(** ** Orders *)

Global Instance created_desc_trans : Transitive created_desc.
Proof. unfold created_desc. intros a b c. lia. Qed.
Global Instance created_desc_total : Total created_desc.
Proof. unfold created_desc. intros a b. lia. Qed.

Global Instance upvotes_desc_created_desc_trans : Transitive upvotes_desc_created_desc.
Proof. unfold upvotes_desc_created_desc. intros a b c. lia. Qed.
Global Instance upvotes_desc_created_desc_total : Total upvotes_desc_created_desc.
Proof. unfold upvotes_desc_created_desc. intros a b. lia. Qed.

Global Instance created_asc_trans : Transitive created_asc.
Proof. unfold created_asc. intros a b c. lia. Qed.
Global Instance created_asc_total : Total created_asc.
Proof. unfold created_asc. intros a b. lia. Qed.

(** [valid_id] is the handlers' guard [!feedbackId], read positively. *)
Lemma valid_id_truthy (n : number) :
  truthy_number n = true ↔ ∃ z, valid_id n = Some z.
Proof.
  destruct n as [|z]; simpl.
  - split; [discriminate|]. intros [z Hz]. discriminate.
  - destruct (z =? 0)%Z; simpl; split; eauto; try discriminate.
    intros [z' Hz]. discriminate.
Qed.

(** ** The admin gate *)

Lemma ADMIN_TOKEN_nonempty env : String.eqb (ADMIN_TOKEN env) "" = false.
Proof.
  unfold ADMIN_TOKEN. destruct env as [s|]; [|done].
  destruct (String.eqb s "") eqn:E; done.
Qed.

Lemma requireAdmin_authorized env token next :
  authorized env token → requireAdmin env token next = next.
Proof.
  unfold authorized, requireAdmin. intros ->.
  by rewrite ADMIN_TOKEN_nonempty, String.eqb_refl.
Qed.

(** A request without the configured token stops at the gate with 401. *)
Lemma requireAdmin_unauthorized env token next w :
  ¬ authorized env token →
  requireAdmin env token next w = (mk_response 401 (Error "Unauthorized"), w).
Proof.
  unfold authorized, requireAdmin. intros Hno. destruct token as [t|]; [|done].
  destruct (String.eqb_spec t (ADMIN_TOKEN env)) as [->|Hne]; [done|].
  by rewrite orb_true_r.
Qed.

(** ** Listing (GET /api/feedback) *)

Lemma get_api_feedback_order (o : order_clause) (R : relation FeedbackView)
    `{!RelDecision R, !Transitive R, !Total R} (sortBy : option string) (w : world) :
  (to_lower (match sortBy with
             | None => "upvotes"
             | Some s => if String.eqb s "" then "upvotes" else s
             end) =? "newest")%string = match o with CreatedDesc => true | _ => false end →
  order_by o = merge_sort R →
  lists_sorted sortBy o R w.
Proof.
  intros Hsort Ho. exists (order_by o (joined (store w))). split; [|split].
  - unfold get_api_feedback, db_all_feedback, bindM, exec, select_feedback_joined,
      respond, ret. rewrite Hsort. by destruct o.
  - rewrite Ho, merge_sort_Permutation. by rewrite joined_counted.
  - rewrite Ho. by apply StronglySorted_merge_sort.
Qed.

(** C4: the listing returns every stored item with its upvote and comment
    counts; with [sortBy=newest] the rows are sorted by creation time
    descending, whatever the counts; with [sortBy] absent or [upvotes] they
    are sorted by upvote count descending, ties by creation time
    descending. *)
Theorem C4_listing_sorted (w : world) :
  lists_sorted (Some "newest") CreatedDesc created_desc w
  ∧ lists_sorted None UpvotesDescCreatedDesc upvotes_desc_created_desc w
  ∧ lists_sorted (Some "upvotes") UpvotesDescCreatedDesc upvotes_desc_created_desc w.
Proof.
  split; [|split].
  - by apply (get_api_feedback_order CreatedDesc created_desc).
  - by apply (get_api_feedback_order UpvotesDescCreatedDesc upvotes_desc_created_desc).
  - by apply (get_api_feedback_order UpvotesDescCreatedDesc upvotes_desc_created_desc).
Qed.

(** ** Creation (POST /api/feedback) *)

Ltac run_handler :=
  unfold upvote_inserted;
  unfold db_all_feedback, db_run_insert_feedback, db_get_feedback, db_run_update_feedback,
    db_run_delete_upvotes, db_run_delete_comments, db_run_delete_feedback,
    db_run_insert_upvote, db_get_upvote_count, db_run_insert_comment,
    db_get_comment, db_all_comments;
  unfold bindM, exec, respond, ret;
  cbn [negb andb orb].

Lemma truthy_JStr (s : string) : s ≠ ""%string → truthy (JStr s) = true.
Proof. intros Hne. simpl. by apply negb_true_iff, String.eqb_neq. Qed.

Lemma isValidEmail_truthy (e : string) :
  isValidEmail (JStr e) = true → truthy (JStr e) = true.
Proof. destruct e; [discriminate|done]. Qed.

(** [db.get] by the id AUTOINCREMENT has just handed out finds the row
    that was inserted with it. *)
Lemma head_filter_fresh {A} (key : A → Z) (l : list A) (seq : Z) (a : A) :
  key a = next_rowid seq (key <$> l) →
  head (filter (λ r, key r = next_rowid seq (key <$> l)) (l ++ [a])) = Some a.
Proof.
  intros Hk. rewrite filter_app, filter_fresh by apply next_rowid_fresh.
  by rewrite filter_cons_True.
Qed.



(** C6: a submission with non-empty title and description and an email
    that passes the check inserts one row, with status [Open] and the
    server's timestamp, under a fresh id, and is answered 201 with that row
    and both counts 0. *)
Theorem C6_valid_submission_created
    (now : Z) (t ds : string) (user_email : jsval) (w : world) :
  t ≠ ""%string → ds ≠ ""%string → isValidEmail user_email = true →
  let d := store w in
  let row :=
    Feedback.mk (next_rowid (seq_feedback d) (Feedback.id <$> feedback d))
      t ds (stored_text user_email) now (Some "Open") in
  post_api_feedback now (JStr t) (JStr ds) user_email w
  = (mk_response 201 (CreatedFeedback (Some row) 0 0),
     mk_world
       (mk_db (feedback d ++ [row]) (upvotes d) (comments d)
          (Feedback.id row) (seq_upvotes d) (seq_comments d))
       (trace w ++ [InsertFeedback (SText t) (SText ds) (bind user_email);
                    SelectFeedbackById (Feedback.id row)])).
Proof.
  intros Ht Hd He. destruct (isValidEmail_stored _ He) as (Htr & Hb & _). intros d row.
  unfold post_api_feedback.
  rewrite (truthy_JStr t Ht), (truthy_JStr ds Hd), Htr, He.
  run_handler. unfold insert_feedback, select_feedback_by_id. rewrite Hb. simpl.
  rewrite (head_filter_fresh Feedback.id) by done.
  by rewrite <- app_assoc.
Qed.

Lemma C6_witness :
  post_api_feedback 5 (JStr "Dark mode") (JStr "Please") (JStr "ann@example.com") initial
  = (mk_response 201
       (CreatedFeedback (Some (Feedback.mk 1 "Dark mode" "Please" "ann@example.com" 5 (Some "Open"))) 0 0),
     mk_world
       (mk_db [Feedback.mk 1 "Dark mode" "Please" "ann@example.com" 5 (Some "Open")] [] [] 1 0 0)
       [InsertFeedback (SText "Dark mode") (SText "Please") (SText "ann@example.com");
        SelectFeedbackById 1]).
Proof.
  apply (C6_valid_submission_created 5 "Dark mode" "Please" (JStr "ann@example.com") initial);
    [discriminate|discriminate|reflexivity].
Defined.

(** ** Upvoting and commenting *)

Lemma upvotes_of_snoc (d : db) (u : Upvote.row) (z : Z) :
  Upvote.feedback_id u = z →
  length (filter (λ r, Upvote.feedback_id r = z) (upvotes d ++ [u])) = S (upvotes_of d z).
Proof.
  intros Hu. unfold upvotes_of.
  rewrite filter_app, filter_cons_True, length_app by done. simpl. lia.
Qed.


(** An upvote whose stored pair has no row yet: the row is inserted and the
    answer carries the recomputed count.  The [feedback] table is neither
    read nor written. *)
Lemma upvote_new (feedbackId : number) (z : Z) (user_email : jsval) (w : world) :
  valid_id feedbackId = Some z → isValidEmail user_email = true →
  ¬ Exists (same_vote z (stored_text user_email)) (upvotes (store w)) →
  let d := store w in
  let u := Upvote.mk (next_rowid (seq_upvotes d) (Upvote.id <$> upvotes d)) z
             (stored_text user_email) in
  post_api_feedback_id_upvote feedbackId user_email w
  = (mk_response 200 (Upvoted "Upvoted successfully" (S (upvotes_of d z))),
     mk_world
       (mk_db (feedback d) (upvotes d ++ [u]) (comments d)
          (seq_feedback d) (Upvote.id u) (seq_comments d))
       (trace w ++ [InsertUpvote z (bind user_email); CountUpvotesOf z])).
Proof.
  intros Hid He Hnew d u. destruct (isValidEmail_stored _ He) as (Htr & Hb & _).
  unfold post_api_feedback_id_upvote, upvote_inserted.
  rewrite Hid, Htr, He.
  run_handler. unfold insert_upvote, count_upvotes_of. rewrite Hb. cbn [text_affinity].
  rewrite decide_False by done. cbn [store upvotes trace].
  rewrite (upvotes_of_snoc (store w)) by done. by rewrite <- app_assoc.
Qed.

(** An upvote whose stored pair already has a row: the INSERT fails on the
    UNIQUE constraint, which the handler reads off the error message. *)
Lemma upvote_again (feedbackId : number) (z : Z) (user_email : jsval) (w : world) :
  valid_id feedbackId = Some z → isValidEmail user_email = true →
  Exists (same_vote z (stored_text user_email)) (upvotes (store w)) →
  post_api_feedback_id_upvote feedbackId user_email w
  = (mk_response 409 (Error "User has already upvoted this feedback"),
     mk_world (store w) (trace w ++ [InsertUpvote z (bind user_email)])).
Proof.
  intros Hid He Hold. destruct (isValidEmail_stored _ He) as (Htr & Hb & _).
  unfold post_api_feedback_id_upvote, upvote_inserted.
  rewrite Hid, Htr, He.
  run_handler. unfold insert_upvote. rewrite Hb. cbn [text_affinity].
  by rewrite decide_True by done.
Qed.




(** A comment with a valid id, an accepted email and a text that is not
    falsy is inserted under a fresh id and answered 201 with the created
    row.  The [feedback] table is neither read nor written. *)
Lemma comment_new (now : Z) (feedbackId : number) (z : Z) (user_email comment_text : jsval)
    (w : world) :
  valid_id feedbackId = Some z → isValidEmail user_email = true →
  truthy comment_text = true →
  let d := store w in
  let c := Comment.mk (next_rowid (seq_comments d) (Comment.id <$> comments d)) z
             (stored_text user_email) (stored_text comment_text) now in
  post_api_feedback_id_comments now feedbackId user_email comment_text w
  = (mk_response 201 (CommentRow (Some c)),
     mk_world
       (mk_db (feedback d) (upvotes d) (comments d ++ [c])
          (seq_feedback d) (seq_upvotes d) (Comment.id c))
       (trace w ++ [InsertComment z (bind user_email) (bind comment_text);
                    SelectCommentById (Comment.id c)])).
Proof.
  intros Hid He Ht d c. destruct (isValidEmail_stored _ He) as (Htr & Hb & _).
  assert (text_affinity (bind comment_text) = Some (stored_text comment_text)) as Hc.
  { unfold stored_text. by destruct comment_text as [| |[]|n|s|s]. }
  unfold post_api_feedback_id_comments.
  rewrite Hid, Htr, Ht, He. run_handler.
  unfold insert_comment, select_comment_by_id. rewrite Hc, Hb. simpl.
  rewrite (head_filter_fresh Comment.id) by done. by rewrite <- app_assoc.
Qed.



(** ** Deletion (DELETE /api/feedback/:id) *)

(** C3: an authorized DELETE sends, in this order, the DELETE of the upvotes
    that reference the id, the DELETE of the comments that reference it and
    the DELETE of the feedback row; all three take effect.  When no feedback
    row has the id the last one changes no row and the answer is 404, the
    dependent rows being deleted all the same; otherwise it is 200. *)
Theorem C3_delete_cascade
    (env token : option string) (feedbackId : number) (z : Z) (w : world) :
  authorized env token → valid_id feedbackId = Some z →
  let d := store w in
  delete_api_feedback_id env token feedbackId w
  = (if decide (Exists (λ r, Feedback.id r = z) (feedback d))
     then mk_response 200 OkTrue
     else mk_response 404 (Error "Feedback not found"),
     mk_world
       (mk_db (filter (λ r, Feedback.id r ≠ z) (feedback d))
          (filter (λ r, Upvote.feedback_id r ≠ z) (upvotes d))
          (filter (λ r, Comment.feedback_id r ≠ z) (comments d))
          (seq_feedback d) (seq_upvotes d) (seq_comments d))
       (trace w ++ [DeleteUpvotesOf z; DeleteCommentsOf z; DeleteFeedbackById z])).
Proof.
  intros Hauth Hid d. unfold delete_api_feedback_id.
  rewrite requireAdmin_authorized by done.
  unfold delete_feedback. rewrite Hid. run_handler.
  unfold delete_upvotes_of, delete_comments_of, delete_feedback_by_id.
  cbn [store trace feedback upvotes comments seq_feedback seq_upvotes seq_comments].
  rewrite <- !app_assoc. cbn [app].
  destruct (decide (Exists (λ r, Feedback.id r = z) (feedback d))) as [Hex|Hno].
  - destruct (Nat.eqb_spec
                (length (feedback (store w))
                 - length (filter (λ r, Feedback.id r ≠ z) (feedback (store w)))) 0)
      as [E|_]; [|done].
    exfalso. revert E. apply length_filter_some.
    eapply Exists_impl; [exact Hex|]. intros r Hr Hne. by apply Hne.
  - rewrite length_filter_all; [done|].
    apply Forall_forall. intros r Hr Heq. apply Hno, Exists_exists. eauto.
Qed.

Lemma C3_witness :
  delete_api_feedback_id None (Some "changeme") (Num 7)
    (mk_world (mk_db [] [Upvote.mk 1 7 "ann@example.com"]
                 [Comment.mk 1 7 "ann@example.com" "hello" 3] 0 1 1) [])
  = (mk_response 404 (Error "Feedback not found"),
     mk_world (mk_db [] [] [] 0 1 1)
       [DeleteUpvotesOf 7; DeleteCommentsOf 7; DeleteFeedbackById 7]).
Proof.
  apply (C3_delete_cascade None (Some "changeme") (Num 7) 7
           (mk_world (mk_db [] [Upvote.mk 1 7 "ann@example.com"]
                        [Comment.mk 1 7 "ann@example.com" "hello" 3] 0 1 1) []));
    reflexivity.
Defined.

(** ** Update (PUT /api/feedback/:id) *)

Lemma put_fields_empty (title description status : jsval) :
  (length (put_fields title description status) =? 0)%nat
  = negb (defined title || defined description || defined status).
Proof.
  unfold put_fields.
  by destruct (defined title), (defined description), (defined status).
Qed.

(** When the assignments of a PUT go through on a row, the row becomes the
    patched row. *)
Lemma set_columns_patched (title description status : jsval) (r r' : Feedback.row) :
  set_columns (put_fields title description status) r = Ok r' →
  r' = patched title description status r.
Proof.
  destruct r. unfold put_fields, patched, patch_text, patch_status.
  destruct title, description, status; simpl; intros H; by inversion H.
Qed.

(** They go through unless a supplied title or description is [null]. *)
Lemma set_columns_ok (title description status : jsval) (r : Feedback.row) :
  title ≠ JNull → description ≠ JNull →
  set_columns (put_fields title description status) r
  = Ok (patched title description status r).
Proof.
  intros Ht Hd. destruct r. unfold put_fields, patched, patch_text, patch_status.
  by destruct title, description, status.
Qed.

Lemma update_rows_patched (z : Z) (title description status : jsval)
    (rows rows' : list Feedback.row) (n : nat) :
  update_rows (put_fields title description status) z rows = Ok (rows', n) →
  rows' = patched_table z title description status rows.
Proof.
  revert rows' n. induction rows as [|r rows IH]; intros rows' n; cbn [update_rows].
  - by inversion 1.
  - unfold patched_table. rewrite fmap_cons. fold (patched_table z title description status rows).
    destruct (decide (Feedback.id r = z)) as [Heq|Hne].
    + destruct (set_columns _ r) as [|r1] eqn:Hr; [discriminate|].
      destruct (update_rows _ z rows) as [|[rs m]]; [discriminate|].
      inversion 1; subst. apply set_columns_patched in Hr as ->.
      f_equal. by eapply IH.
    + destruct (update_rows _ z rows) as [|[rs m]]; [discriminate|].
      inversion 1; subst. f_equal. by eapply IH.
Qed.

Lemma update_rows_ok (z : Z) (title description status : jsval) (rows : list Feedback.row) :
  title ≠ JNull → description ≠ JNull →
  ∃ n, update_rows (put_fields title description status) z rows
       = Ok (patched_table z title description status rows, n).
Proof.
  intros Ht Hd. induction rows as [|r rows [n IH]]; cbn [update_rows]; [by eexists|].
  unfold patched_table. rewrite fmap_cons.
  fold (patched_table z title description status rows). rewrite IH.
  destruct (decide (Feedback.id r = z)); [|by eexists].
  rewrite set_columns_ok by done. by eexists.
Qed.

(** The patch keeps ids, so the row that [SELECT ... WHERE id = z] finds
    after the update is the patch of the one it found before. *)
Lemma head_filter_patched (z : Z) (title description status : jsval)
    (rows : list Feedback.row) :
  head (filter (λ r, Feedback.id r = z) (patched_table z title description status rows))
  = patched title description status <$> head (filter (λ r, Feedback.id r = z) rows).
Proof.
  unfold patched_table. induction rows as [|r rows IH]; [done|]. rewrite fmap_cons.
  destruct (decide (Feedback.id r = z)) as [Heq|Hne].
  - by rewrite !filter_cons_True by done.
  - by rewrite !filter_cons_False by done.
Qed.

(** The PUT handler, run. *)
Lemma put_feedback_run (feedbackId : number) (title description status : jsval) (w : world) :
  put_feedback feedbackId title description status w
  = match valid_id feedbackId with
    | None => (mk_response 400 (Error "Valid feedback id is required"), w)
    | Some z =>
        if defined status && negb (Set_has ALLOWED_STATUSES status) then
          (mk_response 400 (Error "Invalid status value"), w)
        else if negb (defined title || defined description || defined status) then
          (mk_response 400 (Error "No fields to update"), w)
        else
          let fields := put_fields title description status in
          let d := store w in
          match update_rows fields z (feedback d) with
          | Err _ =>
              (mk_response 500 (Error "Failed to update feedback"),
               mk_world d (trace w ++ [UpdateFeedback fields z]))
          | Ok (rows, _) =>
              (match head (filter (λ r, Feedback.id r = z) rows) with
               | Some row => mk_response 200 (FeedbackRow row)
               | None => mk_response 500 (Error "Failed to retrieve updated feedback")
               end,
               mk_world
                 (mk_db rows (upvotes d) (comments d)
                    (seq_feedback d) (seq_upvotes d) (seq_comments d))
                 (trace w ++ [UpdateFeedback fields z; SelectFeedbackById z]))
          end
    end.
Proof.
  unfold put_feedback. destruct (valid_id feedbackId) as [z|]; [|done].
  destruct (defined status && negb (Set_has ALLOWED_STATUSES status)); [done|].
  cbv zeta. rewrite put_fields_empty.
  destruct (negb (defined title || defined description || defined status)); [done|].
  run_handler. unfold update_feedback, select_feedback_by_id.
  destruct (update_rows _ z (feedback (store w))) as [err|[rows n]]; [done|].
  cbn [store trace feedback]. rewrite <- app_assoc. cbn [app].
  by destruct (head (filter (λ r, Feedback.id r = z) rows)).
Qed.

Lemma Set_has_JStr (s : string) :
  s ∈ ALLOWED_STATUSES → Set_has ALLOWED_STATUSES (JStr s) = true.
Proof. intros H. simpl. by apply bool_decide_eq_true. Qed.

(** A PUT that is let through: a valid id, an allowed status if one is
    supplied, no [null] title or description, at least one field, on an item
    that exists.  The answer is 200 with the patched row, and the table is
    the patched table. *)
Lemma put_feedback_accepted
    (feedbackId : number) (z : Z) (title description status : jsval)
    (r0 : Feedback.row) (w : world) :
  valid_id feedbackId = Some z →
  defined status && negb (Set_has ALLOWED_STATUSES status) = false →
  defined title || defined description || defined status = true →
  title ≠ JNull → description ≠ JNull →
  head (filter (λ r, Feedback.id r = z) (feedback (store w))) = Some r0 →
  let d := store w in
  put_feedback feedbackId title description status w
  = (mk_response 200 (FeedbackRow (patched title description status r0)),
     mk_world
       (mk_db (patched_table z title description status (feedback d))
          (upvotes d) (comments d) (seq_feedback d) (seq_upvotes d) (seq_comments d))
       (trace w ++ [UpdateFeedback (put_fields title description status) z;
                    SelectFeedbackById z])).
Proof.
  intros Hid Hst Hany Ht Hd Hr0 d. rewrite put_feedback_run, Hid, Hst, Hany.
  cbn [negb]. cbv zeta.
  destruct (update_rows_ok z title description status (feedback (store w)) Ht Hd)
    as [n ->].
  by rewrite head_filter_patched, Hr0.
Qed.

(** C7: an authorized PUT whose body has a status outside [Open],
    [Planned], [In Progress], [Completed] is answered 400 and changes
    nothing, whatever else it carries; with an allowed status such as
    [Planned], on an item that exists, it is answered 200 with the row, whose
    stored status is now the supplied one. *)
Theorem C7_status_validated
    (env token : option string) (feedbackId : number)
    (title description : jsval) (w : world) :
  authorized env token →
  (∀ status,
     defined status = true → Set_has ALLOWED_STATUSES status = false →
     ∃ msg,
       put_api_feedback_id env token feedbackId title description status w
       = (mk_response 400 (Error msg), w))
  ∧ (∀ s z r0,
       s ∈ ALLOWED_STATUSES →
       valid_id feedbackId = Some z → title ≠ JNull → description ≠ JNull →
       head (filter (λ r, Feedback.id r = z) (feedback (store w))) = Some r0 →
       ∃ row w',
         put_api_feedback_id env token feedbackId title description (JStr s) w
         = (mk_response 200 (FeedbackRow row), w')
         ∧ Feedback.status row = Some s
         ∧ Feedback.id row = z
         ∧ head (filter (λ r, Feedback.id r = z) (feedback (store w'))) = Some row).
Proof.
  intros Hauth. unfold put_api_feedback_id. split.
  - intros status Hdef Hbad. rewrite requireAdmin_authorized, put_feedback_run by done.
    destruct (valid_id feedbackId); [|by eauto].
    rewrite Hdef, Hbad. by eauto.
  - intros s z r0 Hs Hid Ht Hd Hr0. rewrite requireAdmin_authorized by done.
    rewrite (put_feedback_accepted feedbackId z title description (JStr s) r0);
      [|done|by rewrite (Set_has_JStr s Hs)|by rewrite orb_true_r|done..].
    eexists _, _. split; [done|]. split; [done|]. split.
    + apply head_Some_elem_of, list_elem_of_filter in Hr0. by destruct Hr0.
    + cbn [store feedback]. by rewrite head_filter_patched, Hr0.
Qed.

Lemma C7_witness :
  (∃ msg,
     put_api_feedback_id None (Some "changeme") (Num 1) JUndefined JUndefined
       (JStr "Bogus") one_item
     = (mk_response 400 (Error msg), one_item))
  ∧ (∃ row w',
       put_api_feedback_id None (Some "changeme") (Num 1) JUndefined JUndefined
         (JStr "Planned") one_item
       = (mk_response 200 (FeedbackRow row), w')
       ∧ Feedback.status row = Some "Planned"
       ∧ Feedback.id row = 1%Z
       ∧ head (filter (λ r, Feedback.id r = 1%Z) (feedback (store w'))) = Some row).
Proof.
  destruct (C7_status_validated None (Some "changeme") (Num 1) JUndefined JUndefined
              one_item) as [Hbad Hok]; [reflexivity|].
  split.
  - apply Hbad; reflexivity.
  - apply (Hok "Planned" 1%Z
             (Feedback.mk 1 "Dark mode" "Please add it" "ann@example.com" 5 (Some "Open")));
      [apply (bool_decide_unpack _); exact I|reflexivity|discriminate|discriminate|reflexivity].
Defined.

Lemma patched_keeps (feedbackId : number) (z : Z) (title description status : jsval)
    (rows : list Feedback.row) :
  valid_id feedbackId = Some z →
  Forall2 (keeps_unsupplied feedbackId title description status)
    rows (patched_table z title description status rows).
Proof.
  intros Hid. unfold patched_table. apply Forall2_fmap_r, Forall_Forall2_diag, Forall_forall.
  intros r _. unfold keeps_unsupplied, compose. cbv beta. rewrite Hid.
  destruct (decide (Feedback.id r = z)) as [Heq|Hne].
  - unfold patched, patch_text, patch_status. cbn.
    repeat split; try done; try by intros ->. intros H. by rewrite Heq in H.
  - by repeat split.
Qed.

Lemma unchanged_keeps (feedbackId : number) (title description status : jsval)
    (rows : list Feedback.row) :
  Forall2 (keeps_unsupplied feedbackId title description status) rows rows.
Proof. apply Forall_Forall2_diag, Forall_forall. intros r _. by repeat split. Qed.

(** C8 (amended): an authorized PUT changes, in the row of the target id,
    at most the fields it supplies: every other row is unchanged, and in
    every row the id, the submitter's email, the creation time and each
    field that is not supplied keep their value; upvotes and comments are
    untouched.  When at least one field is supplied, the id is that of an
    existing item, a supplied status is an allowed one and no supplied
    title or description is [null], the table is the patched table and the
    answer is 200 with the resulting row.  When none of the three fields is
    supplied the answer is 400 and nothing changes. *)
Theorem C8_patch_frame
    (env token : option string) (feedbackId : number)
    (title description status : jsval) (w : world) :
  authorized env token →
  let '(res, w') := put_api_feedback_id env token feedbackId title description status w in
  let d := store w in
  let d' := store w' in
  Forall2 (keeps_unsupplied feedbackId title description status) (feedback d) (feedback d')
  ∧ upvotes d' = upvotes d ∧ comments d' = comments d
  ∧ (∀ z r0,
       valid_id feedbackId = Some z →
       defined title || defined description || defined status = true →
       defined status && negb (Set_has ALLOWED_STATUSES status) = false →
       title ≠ JNull → description ≠ JNull →
       head (filter (λ r, Feedback.id r = z) (feedback d)) = Some r0 →
       res = mk_response 200 (FeedbackRow (patched title description status r0))
       ∧ feedback d' = patched_table z title description status (feedback d)
       ∧ head (filter (λ r, Feedback.id r = z) (feedback d'))
         = Some (patched title description status r0))
  ∧ (defined title || defined description || defined status = false →
     ∃ msg, res = mk_response 400 (Error msg) ∧ w' = w).
Proof.
  intros Hauth. unfold put_api_feedback_id. rewrite requireAdmin_authorized by done.
  destruct (put_feedback feedbackId title description status w) as [res w'] eqn:Hrun.
  cbv zeta. split; [|split; [|split; [|split]]].
  - rewrite put_feedback_run in Hrun.
    destruct (valid_id feedbackId) as [z|] eqn:Hid;
      [|inversion Hrun; subst; apply unchanged_keeps].
    destruct (defined status && negb (Set_has ALLOWED_STATUSES status));
      [inversion Hrun; subst; apply unchanged_keeps|].
    destruct (negb (defined title || defined description || defined status));
      [inversion Hrun; subst; apply unchanged_keeps|].
    cbv zeta in Hrun.
    destruct (update_rows _ z (feedback (store w))) as [err|[rows n]] eqn:Hup;
      inversion Hrun; subst; [apply unchanged_keeps|].
    apply update_rows_patched in Hup as ->. cbn [store feedback].
    by apply patched_keeps.
  - rewrite put_feedback_run in Hrun.
    destruct (valid_id feedbackId) as [z|]; [|by inversion Hrun].
    destruct (defined status && negb (Set_has ALLOWED_STATUSES status));
      [by inversion Hrun|].
    destruct (negb (defined title || defined description || defined status));
      [by inversion Hrun|].
    cbv zeta in Hrun.
    destruct (update_rows _ z (feedback (store w))) as [err|[rows n]];
      by inversion Hrun.
  - rewrite put_feedback_run in Hrun.
    destruct (valid_id feedbackId) as [z|]; [|by inversion Hrun].
    destruct (defined status && negb (Set_has ALLOWED_STATUSES status));
      [by inversion Hrun|].
    destruct (negb (defined title || defined description || defined status));
      [by inversion Hrun|].
    cbv zeta in Hrun.
    destruct (update_rows _ z (feedback (store w))) as [err|[rows n]];
      by inversion Hrun.
  - intros z r0 Hid Hany Hst Ht Hd Hr0.
    rewrite (put_feedback_accepted feedbackId z title description status r0) in Hrun
      by done.
    inversion Hrun; subst. cbn [store feedback].
    by rewrite head_filter_patched, Hr0.
  - intros Hnone. rewrite put_feedback_run in Hrun.
    destruct (valid_id feedbackId) as [z|]; [|inversion Hrun; by eauto].
    destruct (defined status && negb (Set_has ALLOWED_STATUSES status));
      [inversion Hrun; by eauto|].
    rewrite Hnone in Hrun. inversion Hrun; by eauto.
Qed.

Lemma C8_witness :
  let '(res, w') :=
    put_api_feedback_id None (Some "changeme") (Num 1) (JStr "Night mode") JUndefined
      JUndefined one_item in
  res = mk_response 200
          (FeedbackRow (Feedback.mk 1 "Night mode" "Please add it" "ann@example.com" 5
                          (Some "Open")))
  ∧ feedback (store w')
    = [Feedback.mk 1 "Night mode" "Please add it" "ann@example.com" 5 (Some "Open")].
Proof.
  pose proof (C8_patch_frame None (Some "changeme") (Num 1) (JStr "Night mode") JUndefined
                JUndefined one_item eq_refl) as H.
  destruct (put_api_feedback_id None (Some "changeme") (Num 1) (JStr "Night mode")
              JUndefined JUndefined one_item) as [res w'].
  destruct H as (_ & _ & _ & Hok & _).
  destruct (Hok 1%Z
              (Feedback.mk 1 "Dark mode" "Please add it" "ann@example.com" 5 (Some "Open")))
    as (Hres & Htab & _); [reflexivity|reflexivity|reflexivity|discriminate|discriminate|reflexivity|].
  split; [exact Hres|exact Htab].
Defined.

(** C8, as first stated, fails: an authorized PUT that supplies a field is
    not always answered with the resulting row.  On a database whose one
    item has id 1, a status outside the allowed set is answered 400, an id
    that no item has is answered 500 after an UPDATE that changes no row, a
    [null] title is answered 500 by the NOT NULL constraint, and an id that
    is not a number is answered 400. *)
Lemma C8_put_answered_without_row :
  authorized None (Some "changeme")
  ∧ put_api_feedback_id None (Some "changeme") (Num 1) JUndefined JUndefined (JStr "Bogus")
      one_item
    = (mk_response 400 (Error "Invalid status value"), one_item)
  ∧ put_api_feedback_id None (Some "changeme") (Num 2) (JStr "Night mode") JUndefined
      JUndefined one_item
    = (mk_response 500 (Error "Failed to retrieve updated feedback"),
       mk_world (store one_item)
         [UpdateFeedback [(ColTitle, SText "Night mode")] 2; SelectFeedbackById 2])
  ∧ put_api_feedback_id None (Some "changeme") (Num 1) JNull JUndefined JUndefined one_item
    = (mk_response 500 (Error "Failed to update feedback"),
       mk_world (store one_item) [UpdateFeedback [(ColTitle, SNull)] 1])
  ∧ put_api_feedback_id None (Some "changeme") NaN (JStr "Night mode") JUndefined
      JUndefined one_item
    = (mk_response 400 (Error "Valid feedback id is required"), one_item).
Proof. by vm_compute. Qed.

(** A title that is a number or an array is stored as text: the decimal
    text of the number, [[object Object]] for the array. *)
Example put_stores_text_of_value :
  (put_api_feedback_id None (Some "changeme") (Num 1) (JNum (mk_int32 42 I)) JUndefined
     JUndefined one_item).1
  = mk_response 200
      (FeedbackRow (Feedback.mk 1 "42" "Please add it" "ann@example.com" 5 (Some "Open")))
  ∧ (put_api_feedback_id None (Some "changeme") (Num 1) (JObject "a,b") JUndefined
       JUndefined one_item).1
    = mk_response 200
        (FeedbackRow (Feedback.mk 1 "[object Object]" "Please add it" "ann@example.com" 5
                        (Some "Open"))).
Proof. by vm_compute. Qed.

(** ** Comment listing (GET /api/feedback/:id/comments) *)

(** C9, as the code has it: for an id that passes the handler's check, the
    answer is 200 with exactly the comments that reference the id, sorted
    by creation time ascending.  The only statement sent reads [comments];
    the [feedback] table is not consulted, so an id without a feedback row
    gets the comments that reference it, and the empty list when there are
    none. *)
Theorem C9_comments_listed (feedbackId : number) (z : Z) (w : world) :
  valid_id feedbackId = Some z →
  ∃ rows,
    get_api_feedback_id_comments feedbackId w
    = (mk_response 200 (CommentList rows),
       mk_world (store w) (trace w ++ [SelectCommentsOf z]))
    ∧ rows ≡ₚ comments_of (store w) z
    ∧ StronglySorted created_asc rows
    ∧ touches_feedback (SelectCommentsOf z) = false
    ∧ (comments_of (store w) z = [] → rows = []).
Proof.
  intros Hid. exists (merge_sort created_asc (comments_of (store w) z)).
  split; [|split; [|split; [|split]]].
  - unfold get_api_feedback_id_comments. rewrite Hid. by run_handler.
  - apply merge_sort_Permutation.
  - apply (StronglySorted_merge_sort created_asc).
  - done.
  - by intros ->.
Qed.

Lemma C9_witness :
  ∃ rows,
    get_api_feedback_id_comments (Num 7) initial
    = (mk_response 200 (CommentList rows), mk_world (store initial) [SelectCommentsOf 7])
    ∧ rows ≡ₚ comments_of (store initial) 7
    ∧ StronglySorted created_asc rows
    ∧ touches_feedback (SelectCommentsOf 7) = false
    ∧ (comments_of (store initial) 7 = [] → rows = []).
Proof. apply (C9_comments_listed (Num 7) 7 initial). reflexivity. Defined.

(** C9, as stated, fails: after one comment is posted to id 7 on a fresh
    database, no feedback row has id 7, yet the comment listing of id 7 is
    not empty. *)
Lemma C9_orphan_comment_listed :
  let w :=
    serve None
      [(3%Z, POST_feedback_id_comments (Num 7) (JStr "ann@example.com") (JStr "hello"))]
      initial in
  feedback (store w) = []
  ∧ (get_api_feedback_id_comments (Num 7) w).1
    = mk_response 200 (CommentList [Comment.mk 1 7 "ann@example.com" "hello" 3]).
Proof. vm_compute. done. Qed.

(** ** The invariant on titles and descriptions *)

(** C2 fails on the code: a valid submission followed by an authorized PUT
    with [title: ""] leaves a stored item whose title is empty.  POST rejects
    an empty title; PUT tests only [title !== undefined]. *)
Theorem C2_put_stores_empty_title :
  let reqs :=
    [(5%Z, POST_feedback (JStr "Dark mode") (JStr "Please add it") (JStr "ann@example.com"));
     (6%Z, PUT_feedback_id (Some "changeme") (Num 1) (JStr "") JUndefined JUndefined)] in
  let w := serve None reqs initial in
  (handle None 6 (PUT_feedback_id (Some "changeme") (Num 1) (JStr "") JUndefined JUndefined)
     (serve None [(5%Z, POST_feedback (JStr "Dark mode") (JStr "Please add it")
                          (JStr "ann@example.com"))] initial)).1
  = mk_response 200
      (FeedbackRow (Feedback.mk 1 "" "Please add it" "ann@example.com" 5 (Some "Open")))
  ∧ feedback (store w)
    = [Feedback.mk 1 "" "Please add it" "ann@example.com" 5 (Some "Open")]
  ∧ reachable None (store w)
  ∧ ¬ nonempty_text (store w).
Proof.
  intros reqs w. split; [by vm_compute|]. split; [by vm_compute|]. split.
  - by exists reqs.
  - intros H. unfold nonempty_text in H.
    assert (feedback (store w)
            = [Feedback.mk 1 "" "Please add it" "ann@example.com" 5 (Some "Open")]) as E
      by by vm_compute.
    rewrite E in H. apply Forall_cons in H as [[Ht _] _]. by apply Ht.
Qed.

(** Every other request keeps the invariant: it is kept by every request
    except a PUT whose title or description is the empty string. *)

Lemma pretty_N_go_nonempty (x : N) (s : string) :
  s ≠ ""%string → pretty_N_go x s ≠ ""%string.
Proof.
  revert s. induction (N.lt_wf_0 x) as [x _ IH]; intros s Hs.
  destruct (decide (x = 0)%N) as [->|Hx]; [by rewrite pretty_N_go_0|].
  rewrite pretty_N_go_step by lia. apply IH; [|done].
  apply N.div_lt; lia.
Qed.

Lemma pretty_N_nonempty (x : N) : pretty x ≠ ""%string.
Proof.
  unfold pretty, pretty_N. destruct (decide (x = 0)%N) as [->|Hx]; [done|].
  rewrite pretty_N_go_step by lia. by apply pretty_N_go_nonempty.
Qed.

Lemma pretty_Z_nonempty (z : Z) : pretty z ≠ ""%string.
Proof.
  destruct z as [|p|p]; [done|apply (pretty_N_nonempty (Npos p))|done].
Qed.

(** A truthy value is stored by a TEXT column as a non-empty text. *)
Lemma truthy_text (v : jsval) :
  truthy v = true → ∃ s, text_affinity (bind v) = Some s ∧ s ≠ ""%string.
Proof.
  destruct v as [| |b|n|s|s]; simpl; try discriminate; intros H.
  - eexists. split; [done|]. apply pretty_Z_nonempty.
  - eexists. split; [done|]. apply pretty_Z_nonempty.
  - exists s. split; [done|]. by apply String.eqb_neq, negb_true_iff.
  - by eexists.
Qed.

Lemma patch_text_nonempty (v : jsval) (old : string) :
  v ≠ JStr "" → old ≠ ""%string → patch_text v old ≠ ""%string.
Proof.
  intros Hv Hold. unfold patch_text.
  destruct v as [| |b|n|s|s]; simpl; try done; try apply pretty_Z_nonempty.
  intros ->. by apply Hv.
Qed.

Lemma requireAdmin_cases env token next w :
  requireAdmin env token next w = (mk_response 401 (Error "Unauthorized"), w)
  ∨ requireAdmin env token next w = next w.
Proof.
  unfold requireAdmin. destruct token as [t|]; [|by left].
  destruct (_ || _); [by left|by right].
Qed.

Lemma post_api_feedback_rows (now : Z) (title description user_email : jsval) (w : world) :
  let rows' := feedback (store (post_api_feedback now title description user_email w).2) in
  rows' = feedback (store w)
  ∨ ∃ row, rows' = feedback (store w) ++ [row]
           ∧ Feedback.title row ≠ ""%string ∧ Feedback.description row ≠ ""%string.
Proof.
  unfold post_api_feedback.
  destruct (truthy title) eqn:Ht; [|by left].
  destruct (truthy description) eqn:Hd; [|by left].
  destruct (truthy user_email) eqn:He; [|by left].
  destruct (isValidEmail user_email); [|by left].
  apply truthy_text in Ht as (t & Ht & ?), Hd as (ds & Hd & ?), He as (e & He & _).
  run_handler. unfold insert_feedback. rewrite Ht, Hd, He. right. by eexists.
Qed.

Lemma put_feedback_rows (feedbackId : number) (title description status : jsval) (w : world) :
  let rows' := feedback (store (put_feedback feedbackId title description status w).2) in
  rows' = feedback (store w)
  ∨ ∃ z, rows' = patched_table z title description status (feedback (store w)).
Proof.
  rewrite put_feedback_run.
  destruct (valid_id feedbackId) as [z|]; [|by left].
  destruct (defined status && negb (Set_has ALLOWED_STATUSES status)); [by left|].
  destruct (negb (defined title || defined description || defined status)); [by left|].
  cbv zeta.
  destruct (update_rows _ z (feedback (store w))) as [err|[rows n]] eqn:Hup; [by left|].
  apply update_rows_patched in Hup as ->. right. by exists z.
Qed.

Lemma delete_feedback_rows (feedbackId : number) (w : world) :
  let rows' := feedback (store (delete_feedback feedbackId w).2) in
  rows' = feedback (store w)
  ∨ ∃ z, rows' = filter (λ r, Feedback.id r ≠ z) (feedback (store w)).
Proof.
  unfold delete_feedback. destruct (valid_id feedbackId) as [z|]; [|by left].
  right. exists z. run_handler.
  unfold delete_upvotes_of, delete_comments_of, delete_feedback_by_id.
  cbn [store feedback].
  by destruct (_ =? 0)%nat.
Qed.

Lemma upvote_rows (feedbackId : number) (user_email : jsval) (w : world) :
  feedback (store (post_api_feedback_id_upvote feedbackId user_email w).2)
  = feedback (store w).
Proof.
  unfold post_api_feedback_id_upvote. destruct (valid_id feedbackId) as [z|]; [|done].
  destruct (truthy user_email); [|done]. destruct (isValidEmail user_email); [|done].
  run_handler. unfold insert_upvote, count_upvotes_of.
  destruct (text_affinity (bind user_email)) as [e|]; [|done].
  destruct (decide _); done.
Qed.

Lemma comment_rows (now : Z) (feedbackId : number) (user_email comment_text : jsval)
    (w : world) :
  feedback (store (post_api_feedback_id_comments now feedbackId user_email comment_text w).2)
  = feedback (store w).
Proof.
  unfold post_api_feedback_id_comments. destruct (valid_id feedbackId) as [z|]; [|done].
  destruct (truthy user_email); [|done]. destruct (truthy comment_text); [|done].
  destruct (isValidEmail user_email); [|done].
  run_handler. unfold insert_comment, select_comment_by_id.
  destruct (text_affinity (bind user_email)) as [e|]; [|done].
  destruct (text_affinity (bind comment_text)) as [t|]; done.
Qed.

Lemma nonempty_text_kept (env : option string) (now : Z) (req : request) (w : world) :
  (∀ token id title description status,
     req = PUT_feedback_id token id title description status →
     title ≠ JStr "" ∧ description ≠ JStr "") →
  nonempty_text (store w) →
  nonempty_text (store (handle env now req w).2).
Proof.
  unfold nonempty_text. intros Hput Hinv.
  destruct req as [sortBy|t d e|tok id t d s|tok|tok id|id e|id e t|id]; cbn [handle].
  - unfold get_api_feedback. by run_handler.
  - destruct (post_api_feedback_rows now t d e w) as [->|(row & -> & Ht & Hd)]; [done|].
    apply Forall_app. split; [done|]. by repeat constructor.
  - unfold put_api_feedback_id.
    destruct (requireAdmin_cases env tok (put_feedback id t d s) w) as [->| ->]; [done|].
    destruct (put_feedback_rows id t d s w) as [->|[z ->]]; [done|].
    destruct (Hput tok id t d s eq_refl) as [Ht Hd].
    unfold patched_table. apply Forall_fmap. eapply Forall_impl; [exact Hinv|].
    intros r [Hrt Hrd]. simpl. destruct (decide _); [|done].
    split; by apply patch_text_nonempty.
  - unfold get_api_admin_verify.
    by destruct (requireAdmin_cases env tok (respond 200 OkTrue) w) as [->| ->].
  - unfold delete_api_feedback_id.
    destruct (requireAdmin_cases env tok (delete_feedback id) w) as [->| ->]; [done|].
    destruct (delete_feedback_rows id w) as [->|[z ->]]; [done|].
    apply Forall_forall. intros r [_ Hr]%list_elem_of_filter.
    by apply (proj1 (Forall_forall _ _) Hinv).
  - by rewrite upvote_rows.
  - by rewrite comment_rows.
  - unfold get_api_feedback_id_comments. destruct (valid_id id); by run_handler.
Qed.

(** * Further properties of the server *)

(** ** Every handler stays within [effect] *)

Lemma post_api_feedback_effect (now : Z) (title description user_email : jsval) (w : world) :
  effect (store w) (store (post_api_feedback now title description user_email w).2).
Proof.
  unfold post_api_feedback.
  destruct (truthy title) eqn:Ht; [|constructor].
  destruct (truthy description) eqn:Hd; [|constructor].
  destruct (truthy user_email) eqn:He; [|constructor].
  destruct (isValidEmail user_email) eqn:Hv; [|constructor].
  destruct (isValidEmail_stored _ Hv) as (_ & Hb & Hst).
  apply truthy_text in Ht as (t & Ht & ?), Hd as (ds & Hd & ?).
  run_handler. unfold insert_feedback, select_feedback_by_id. rewrite Ht, Hd, Hb.
  cbn [text_affinity store snd]. by apply effect_create.
Qed.

Lemma put_feedback_effect (feedbackId : number) (title description status : jsval) (w : world) :
  effect (store w) (store (put_feedback feedbackId title description status w).2).
Proof.
  rewrite put_feedback_run.
  destruct (valid_id feedbackId) as [z|]; [|constructor].
  destruct (defined status && negb (Set_has ALLOWED_STATUSES status)) eqn:Hs; [constructor|].
  destruct (negb (defined title || defined description || defined status)); [constructor|].
  cbv zeta.
  destruct (update_rows _ z (feedback (store w))) as [err|[rows n]] eqn:Hup; [constructor|].
  apply update_rows_patched in Hup as ->. by apply effect_patch.
Qed.

Lemma delete_feedback_effect (feedbackId : number) (w : world) :
  effect (store w) (store (delete_feedback feedbackId w).2).
Proof.
  unfold delete_feedback. destruct (valid_id feedbackId) as [z|]; [|constructor].
  run_handler. unfold delete_upvotes_of, delete_comments_of, delete_feedback_by_id.
  cbn [store feedback upvotes comments seq_feedback seq_upvotes seq_comments].
  destruct (_ =? 0)%nat; apply effect_delete.
Qed.

Lemma valid_id_nonzero (feedbackId : number) (z : Z) :
  valid_id feedbackId = Some z → z ≠ 0%Z.
Proof.
  destruct feedbackId as [|z']; [discriminate|]. simpl.
  destruct (Z.eqb_spec z' 0); [discriminate|]. by intros [= <-].
Qed.

Lemma upvote_effect (feedbackId : number) (user_email : jsval) (w : world) :
  effect (store w) (store (post_api_feedback_id_upvote feedbackId user_email w).2).
Proof.
  unfold post_api_feedback_id_upvote.
  destruct (valid_id feedbackId) as [z|] eqn:Hid; [|constructor].
  destruct (truthy user_email); [|constructor].
  destruct (isValidEmail user_email) eqn:Hv; [|constructor].
  destruct (isValidEmail_stored _ Hv) as (_ & Hb & Hst).
  unfold upvote_inserted.
  run_handler. unfold insert_upvote, count_upvotes_of. rewrite Hb. cbn [text_affinity].
  destruct (decide (Exists (same_vote z (stored_text user_email)) (upvotes (store w))))
    as [Hold|Hnew].
  - cbn. constructor.
  - cbn [store snd]. apply effect_upvote; [by eapply valid_id_nonzero|done..].
Qed.

Lemma comment_effect (now : Z) (feedbackId : number) (user_email comment_text : jsval)
    (w : world) :
  effect (store w)
    (store (post_api_feedback_id_comments now feedbackId user_email comment_text w).2).
Proof.
  unfold post_api_feedback_id_comments.
  destruct (valid_id feedbackId) as [z|] eqn:Hid; [|constructor].
  destruct (truthy user_email); [|constructor].
  destruct (truthy comment_text) eqn:Ht; [|constructor].
  destruct (isValidEmail user_email) eqn:Hv; [|constructor].
  destruct (isValidEmail_stored _ Hv) as (_ & Hb & Hst).
  apply truthy_text in Ht as (t & Ht & ?).
  run_handler. unfold insert_comment, select_comment_by_id. rewrite Ht, Hb.
  cbn [text_affinity store snd].
  apply effect_comment; [by eapply valid_id_nonzero|done..].
Qed.

Lemma handle_effect (env : option string) (now : Z) (req : request) (w : world) :
  effect (store w) (store (handle env now req w).2).
Proof.
  destruct req as [sortBy|t d e|tok id t d s|tok|tok id|id e|id e t|id]; cbn [handle].
  - unfold get_api_feedback. run_handler. constructor.
  - apply post_api_feedback_effect.
  - unfold put_api_feedback_id.
    destruct (requireAdmin_cases env tok (put_feedback id t d s) w) as [->| ->];
      [constructor|apply put_feedback_effect].
  - unfold get_api_admin_verify.
    destruct (requireAdmin_cases env tok (respond 200 OkTrue) w) as [->| ->]; constructor.
  - unfold delete_api_feedback_id.
    destruct (requireAdmin_cases env tok (delete_feedback id) w) as [->| ->];
      [constructor|apply delete_feedback_effect].
  - apply upvote_effect.
  - apply comment_effect.
  - unfold get_api_feedback_id_comments. destruct (valid_id id); run_handler; constructor.
Qed.

(** Induction over the requests served: a property of the fresh database
    that every effect preserves holds in every reachable state. *)
Lemma serve_preserves (P : db → Prop) (env : option string) :
  (∀ d d', P d → effect d d' → P d') →
  ∀ reqs w, P (store w) → P (store (serve env reqs w)).
Proof.
  intros Hstep reqs. induction reqs as [|[now req] reqs IH]; intros w Hw; [done|].
  cbn [serve]. apply IH. eapply Hstep; [exact Hw|apply handle_effect].
Qed.

Lemma reachable_ind (P : db → Prop) (env : option string) :
  P empty_db → (∀ d d', P d → effect d d' → P d') →
  ∀ d, reachable env d → P d.
Proof.
  intros H0 Hstep d [reqs <-]. by apply serve_preserves.
Qed.

(** ** Invariants of the reachable states *)

Lemma sublist_StronglySorted {A} (R : relation A) (l1 l2 : list A) :
  l1 `sublist_of` l2 → StronglySorted R l2 → StronglySorted R l1.
Proof.
  induction 1 as [|x l1 l2 Hsub IH|x l1 l2 Hsub IH]; intros Hs; [done|..].
  - apply StronglySorted_cons in Hs as [Hx Hs]. apply StronglySorted_cons.
    split; [|by apply IH]. apply Forall_forall. intros y Hy.
    apply (proj1 (Forall_forall _ _) Hx). by eapply elem_of_sublist.
  - apply StronglySorted_cons in Hs as [_ Hs]. by apply IH.
Qed.

Lemma sublist_Forall {A} (P : A → Prop) (l1 l2 : list A) :
  l1 `sublist_of` l2 → Forall P l2 → Forall P l1.
Proof.
  intros Hsub Hl. apply Forall_forall. intros x Hx.
  apply (proj1 (Forall_forall _ _) Hl). by eapply elem_of_sublist.
Qed.

Lemma fmap_filter_sublist {A B} (f : A → B) (P : A → Prop) `{!∀ x, Decision (P x)}
    (l : list A) :
  f <$> filter P l `sublist_of` f <$> l.
Proof.
  induction l as [|a l IH]; [done|]. rewrite filter_cons, fmap_cons.
  destruct (decide (P a)).
  - rewrite fmap_cons. by apply sublist_skip.
  - by apply sublist_cons.
Qed.

Lemma patched_table_frozen (z : Z) (title description status : jsval)
    (rows : list Feedback.row) :
  frozen <$> patched_table z title description status rows = frozen <$> rows.
Proof.
  unfold patched_table. rewrite <- list_fmap_compose. apply list_fmap_ext.
  intros _ r _. unfold compose. by destruct (decide _).
Qed.

Lemma patched_table_ids (z : Z) (title description status : jsval)
    (rows : list Feedback.row) :
  Feedback.id <$> patched_table z title description status rows = Feedback.id <$> rows.
Proof.
  unfold patched_table. rewrite <- list_fmap_compose. apply list_fmap_ext.
  intros _ r _. unfold compose. by destruct (decide _).
Qed.

Lemma max_id_nonneg (ids : list Z) : (0 ≤ max_id ids)%Z.
Proof. induction ids as [|i ids IH]; simpl; lia. Qed.

Lemma ids_ok_sublist (seq : Z) (ids ids' : list Z) :
  ids' `sublist_of` ids → ids_ok seq ids → ids_ok seq ids'.
Proof.
  intros Hsub [Hs Hb]. split; [by eapply sublist_StronglySorted|by eapply sublist_Forall].
Qed.

(** Appending the row id that AUTOINCREMENT hands out, and moving the
    counter to it, keeps the ids in order. *)
Lemma ids_ok_next (seq : Z) (ids : list Z) :
  ids_ok seq ids → ids_ok (next_rowid seq ids) (ids ++ [next_rowid seq ids]).
Proof.
  intros [Hs Hb]. pose proof (max_id_nonneg ids) as Hm.
  assert (seq < next_rowid seq ids)%Z as Hlt by (unfold next_rowid; lia).
  split.
  - apply StronglySorted_app_2; [|done|repeat constructor].
    intros x1 x2 Hx1 ->%list_elem_of_singleton.
    apply (proj1 (Forall_forall _ _) Hb) in Hx1. cbv beta in *. lia.
  - apply Forall_app. split.
    + eapply Forall_impl; [exact Hb|]. intros i Hi. cbv beta in *. lia.
    + repeat constructor; unfold next_rowid; lia.
Qed.

Lemma keys_ok_effect (d d' : db) : keys_ok d → effect d d' → keys_ok d'.
Proof.
  intros (Hf & Hu & Hc) He. destruct He; unfold keys_ok;
    cbn [feedback upvotes comments seq_feedback seq_upvotes seq_comments].
  - done.
  - rewrite fmap_app. split; [|done]. by apply ids_ok_next.
  - by rewrite patched_table_ids.
  - split; [|split]; (eapply ids_ok_sublist; [apply fmap_filter_sublist|done]).
  - rewrite fmap_app. split; [done|]. split; [|done]. by apply ids_ok_next.
  - rewrite fmap_app. split; [done|]. split; [done|]. by apply ids_ok_next.
Qed.

(** X1: in every reachable state the row ids of each table are positive,
    strictly increasing in rowid order (so no two rows share an id) and not
    above the table's AUTOINCREMENT counter. *)
Theorem reachable_keys_ok (env : option string) (d : db) :
  reachable env d → keys_ok d.
Proof.
  apply reachable_ind; [|apply keys_ok_effect].
  repeat split; constructor.
Qed.

Lemma reachable_keys_ok_witness :
  keys_ok
    (store (serve None
              [(5%Z, POST_feedback (JStr "Dark mode") (JStr "Please add it")
                       (JStr "ann@example.com"));
               (6%Z, POST_feedback_id_upvote (Num 1) (JStr "bob@example.com"))]
              initial)).
Proof. apply (reachable_keys_ok None). by eexists. Defined.

Lemma seq_feedback_effect (d d' : db) :
  effect d d' → (seq_feedback d ≤ seq_feedback d')%Z.
Proof.
  intros He. destruct He; cbn [seq_feedback]; try lia.
  subst id. unfold next_rowid. lia.
Qed.

(** X2: a feedback id is never handed out twice, even after the item was
    deleted: the id the next INSERT takes is above every id an item had at
    any earlier time. *)
Theorem feedback_id_never_reused
    (env : option string) (reqs1 reqs2 : list (Z * request)) (r : Feedback.row) :
  let w1 := serve env reqs1 initial in
  let w2 := serve env reqs2 w1 in
  r ∈ feedback (store w1) →
  (Feedback.id r
   < next_rowid (seq_feedback (store w2)) (Feedback.id <$> feedback (store w2)))%Z.
Proof.
  intros w1 w2 Hr.
  assert (keys_ok (store w1)) as (( _ & Hb) & _).
  { apply (reachable_ind keys_ok env); [|apply keys_ok_effect|by eexists].
    repeat split; constructor. }
  assert (Feedback.id r ≤ seq_feedback (store w1))%Z as Hle.
  { apply (proj1 (Forall_forall _ _) Hb (Feedback.id r)).
    by apply list_elem_of_fmap_2. }
  assert (seq_feedback (store w1) ≤ seq_feedback (store w2))%Z as Hmono.
  { apply (serve_preserves (λ d, (seq_feedback (store w1) ≤ seq_feedback d)%Z)); [|done].
    intros d d' Hd He%seq_feedback_effect. lia. }
  unfold next_rowid. lia.
Qed.

Lemma feedback_id_never_reused_witness :
  let w1 :=
    serve None [(5%Z, POST_feedback (JStr "Dark mode") (JStr "Please add it")
                        (JStr "ann@example.com"))] initial in
  let w2 := serve None [(6%Z, DELETE_feedback_id (Some "changeme") (Num 1))] w1 in
  feedback (store w2) = []
  ∧ (1 < next_rowid (seq_feedback (store w2)) (Feedback.id <$> feedback (store w2)))%Z.
Proof.
  split; [reflexivity|].
  apply (feedback_id_never_reused None
           [(5%Z, POST_feedback (JStr "Dark mode") (JStr "Please add it")
                    (JStr "ann@example.com"))]
           [(6%Z, DELETE_feedback_id (Some "changeme") (Num 1))]
           (Feedback.mk 1 "Dark mode" "Please add it" "ann@example.com" 5 (Some "Open"))).
  apply list_elem_of_here.
Defined.

Lemma vote_key_fresh (z : Z) (e : string) (l : list Upvote.row) :
  ¬ Exists (same_vote z e) l → (z, e) ∉ vote_key <$> l.
Proof.
  intros Hno (r & Hk & Hr)%list_elem_of_fmap. apply Hno, Exists_exists.
  exists r. split; [done|]. unfold vote_key in Hk. by inversion Hk.
Qed.

(** X3: in every reachable state no two upvote rows carry the same
    (feedback_id, user_email) pair. *)
Theorem reachable_votes_unique (env : option string) (d : db) :
  reachable env d → NoDup (vote_key <$> upvotes d).
Proof.
  revert d. apply reachable_ind; [constructor|].
  intros d0 d' Hd He. destruct He; cbn [upvotes]; try done.
  - eapply sublist_NoDup; [exact Hd|apply fmap_filter_sublist].
  - rewrite fmap_app. apply NoDup_app. split; [done|]. split; [|repeat constructor].
    + intros x Hx ->%list_elem_of_singleton. by eapply vote_key_fresh.
    + by intros ?%elem_of_nil.
Qed.

Lemma reachable_votes_unique_witness :
  NoDup
    (vote_key
       <$> upvotes
             (store (serve None
                       [(6%Z, POST_feedback_id_upvote (Num 1) (JStr "bob@example.com"));
                        (7%Z, POST_feedback_id_upvote (Num 1) (JStr "bob@example.com"))]
                       initial))).
Proof. apply (reachable_votes_unique None). by eexists. Defined.

Lemma status_allowed_effect (d d' : db) :
  Forall (λ r, ∃ s, Feedback.status r = Some s ∧ s ∈ ALLOWED_STATUSES) (feedback d) →
  effect d d' →
  Forall (λ r, ∃ s, Feedback.status r = Some s ∧ s ∈ ALLOWED_STATUSES) (feedback d').
Proof.
  intros Hd He. destruct He as [|now t ds e|z title description status Hst| | |];
    cbn [feedback]; try done.
  - apply Forall_app. split; [done|]. repeat constructor.
    exists "Open"%string. split; [done|]. apply list_elem_of_here.
  - unfold patched_table. apply Forall_fmap. eapply Forall_impl; [exact Hd|].
    intros r (s & Hs & Hin). cbv beta. unfold compose.
    destruct (decide _); [|by eauto]. unfold patched, patch_status. cbn [Feedback.status].
    destruct (defined status) eqn:Hdef; [|by eauto].
    cbn [andb] in Hst. apply negb_false_iff in Hst.
    destruct status as [| |b|n|s'|s']; try discriminate.
    exists s'. split; [done|]. by apply bool_decide_eq_true in Hst.
  - eapply sublist_Forall; [apply sublist_filter|done].
Qed.

(** X4: in every reachable state the status of every item is one of [Open],
    [Planned], [In Progress], [Completed]; it is never NULL. *)
Theorem reachable_status_allowed (env : option string) (d : db) :
  reachable env d →
  Forall (λ r, ∃ s, Feedback.status r = Some s ∧ s ∈ ALLOWED_STATUSES) (feedback d).
Proof.
  revert d. apply reachable_ind; [constructor|apply status_allowed_effect].
Qed.

Lemma reachable_status_allowed_witness :
  Forall (λ r, ∃ s, Feedback.status r = Some s ∧ s ∈ ALLOWED_STATUSES)
    (feedback
       (store (serve None
                 [(5%Z, POST_feedback (JStr "Dark mode") (JStr "Please add it")
                          (JStr "ann@example.com"));
                  (6%Z, PUT_feedback_id (Some "changeme") (Num 1) JUndefined JUndefined
                          (JStr "Planned"))]
                 initial))).
Proof. apply (reachable_status_allowed None). by eexists. Defined.

(** X5: in every reachable state every stored email, of an item, an upvote
    or a comment, is a text that passes [isValidEmail], or the text
    [[object Object]], which is what the database holds for an array that
    passed the check. *)
Theorem reachable_emails_valid (env : option string) (d : db) :
  reachable env d →
  Forall (λ r, stored_email (Feedback.user_email r)) (feedback d)
  ∧ Forall (λ r, stored_email (Upvote.user_email r)) (upvotes d)
  ∧ Forall (λ r, stored_email (Comment.user_email r)) (comments d).
Proof.
  revert d. apply reachable_ind; [by repeat split|].
  intros d0 d' (Hf & Hu & Hc) He. destruct He; cbn [feedback upvotes comments]; try done.
  - split; [|done]. apply Forall_app. split; [done|]. constructor; [done|constructor].
  - split; [|done]. unfold patched_table. apply Forall_fmap.
    eapply Forall_impl; [exact Hf|]. intros r Hr. unfold compose.
    by destruct (decide _).
  - split; [|split]; (eapply sublist_Forall; [apply sublist_filter|done]).
  - split; [done|]. split; [|done]. apply Forall_app. split; [done|].
    constructor; [done|constructor].
  - split; [done|]. split; [done|]. apply Forall_app. split; [done|].
    constructor; [done|constructor].
Qed.

Lemma reachable_emails_valid_witness :
  let d :=
    store (serve None
             [(5%Z, POST_feedback (JStr "Dark mode") (JStr "Please add it")
                      (JStr "ann@example.com"));
              (6%Z, POST_feedback_id_upvote (Num 1) (JStr "bob@example.com"));
              (7%Z, POST_feedback_id_upvote (Num 1) (JObject "eve@example.com"))]
             initial) in
  Forall (λ r, stored_email (Feedback.user_email r)) (feedback d)
  ∧ Forall (λ r, stored_email (Upvote.user_email r)) (upvotes d)
  ∧ Forall (λ r, stored_email (Comment.user_email r)) (comments d).
Proof. apply (reachable_emails_valid None). by eexists. Defined.

(** The second case occurs: the email of an upvote sent with the array
    [['eve@example.com']] is stored as a text that does not pass the
    check. *)
Example array_email_stored :
  upvotes (store (serve None
                    [(7%Z, POST_feedback_id_upvote (Num 1) (JObject "eve@example.com"))]
                    initial))
  = [Upvote.mk 1 1 "[object Object]"]
  ∧ isValidEmail (JStr "[object Object]") = false.
Proof. by vm_compute. Qed.

(** X6: in every reachable state every comment has a non-empty text, and
    every comment and every upvote references a non-zero feedback id. *)
Theorem reachable_dependents_wellformed (env : option string) (d : db) :
  reachable env d →
  Forall (λ c, Comment.comment_text c ≠ ""%string ∧ Comment.feedback_id c ≠ 0%Z)
    (comments d)
  ∧ Forall (λ u, Upvote.feedback_id u ≠ 0%Z) (upvotes d).
Proof.
  revert d. apply reachable_ind; [by repeat split|].
  intros d0 d' (Hc & Hu) He. destruct He; cbn [upvotes comments]; try done.
  - split; (eapply sublist_Forall; [apply sublist_filter|done]).
  - split; [done|]. apply Forall_app. split; [done|]. by repeat constructor.
  - split; [|done]. apply Forall_app. split; [done|]. by repeat constructor.
Qed.

Lemma reachable_dependents_wellformed_witness :
  let d :=
    store (serve None
             [(6%Z, POST_feedback_id_comments (Num 7) (JStr "bob@example.com") (JStr "hi"))]
             initial) in
  Forall (λ c, Comment.comment_text c ≠ ""%string ∧ Comment.feedback_id c ≠ 0%Z)
    (comments d)
  ∧ Forall (λ u, Upvote.feedback_id u ≠ 0%Z) (upvotes d).
Proof. apply (reachable_dependents_wellformed None). by eexists. Defined.

(** ** What no request changes *)

(** X7: no request changes the id, the submitter's email or the creation time
    of an item, or reorders the items: after any request these columns of
    the table are those before it, with rows removed (DELETE) or with one row
    added at the end (POST). *)
Theorem items_frozen (env : option string) (now : Z) (req : request) (w : world) :
  let old := frozen <$> feedback (store w) in
  let new := frozen <$> feedback (store (handle env now req w).2) in
  new `sublist_of` old ∨ ∃ x, new = old ++ [x].
Proof.
  intros old new. subst old new.
  destruct (handle_effect env now req w); cbn [feedback].
  - by left.
  - right. rewrite fmap_app. by eexists.
  - left. by rewrite patched_table_frozen.
  - left. apply fmap_filter_sublist.
  - by left.
  - by left.
Qed.

(** X8: upvote and comment rows are never modified: after any request each
    of the two tables is the table before it with rows removed (the cascade
    of DELETE) or with one row added at the end. *)
Theorem dependents_immutable (env : option string) (now : Z) (req : request) (w : world) :
  let w' := (handle env now req w).2 in
  (upvotes (store w') `sublist_of` upvotes (store w)
   ∨ ∃ u, upvotes (store w') = upvotes (store w) ++ [u])
  ∧ (comments (store w') `sublist_of` comments (store w)
     ∨ ∃ c, comments (store w') = comments (store w) ++ [c]).
Proof.
  intros w'. subst w'.
  destruct (handle_effect env now req w); cbn [upvotes comments];
    try (split; by left).
  - split; left; apply sublist_filter.
  - split; [right; by eexists|by left].
  - split; [by left|right; by eexists].
Qed.

(** ** The email check *)

(** X9: [isValidEmail] accepts a string exactly when it is three non-empty
    runs of characters other than white space and [@], joined by one [@]
    and one dot. *)
Theorem isValidEmail_iff_shaped (s : string) :
  isValidEmail (JStr s) = true ↔ email_shaped s.
Proof.
  unfold isValidEmail, email_shaped, atom, email_re. cbn [ToString].
  rewrite matches_lang. split.
  - inversion 1 as [| |? ? a s1 Ha H1| | | |]; subst.
    inversion H1 as [| |? ? at_ s2 Hat H2| | | |]; subst.
    inversion H2 as [| |? ? b s3 Hb H3| | | |]; subst.
    inversion H3 as [| |? ? dot c Hdot Hc| | | |]; subst.
    apply lang_char in Hat as ->. apply lang_char in Hdot as ->.
    apply lang_plus_class in Ha, Hb, Hc. by exists a, b, c.
  - intros (a & b & c & -> & Ha & Hb & Hc).
    repeat (constructor; [by first [apply lang_plus_class|apply lang_char]|]).
    by apply lang_plus_class.
Qed.

Lemma count_char_app (a : ascii) (s t : string) :
  count_char a (s +:+ t) = count_char a s + count_char a t.
Proof.
  induction s as [|c s IH]; [done|]. rewrite append_cons. simpl. rewrite IH. lia.
Qed.

Lemma length_append (s t : string) :
  String.length (s +:+ t) = String.length s + String.length t.
Proof. induction s as [|c s IH]; [done|]. rewrite append_cons. simpl. by rewrite IH. Qed.

Lemma atom_facts (s : string) :
  atom s →
  count_char "@" s = 0 ∧ all_chars not_space s = true ∧ 1 ≤ String.length s.
Proof.
  intros [Hne Hall]. split; [|split].
  - clear Hne. induction s as [|c s IH]; [done|]. simpl in *.
    apply andb_true_iff in Hall as [Hc Hs]. rewrite (IH Hs).
    unfold not_space_at in Hc. apply negb_true_iff, orb_false_iff in Hc as [_ ->]. done.
  - clear Hne. induction s as [|c s IH]; [done|]. simpl in *.
    apply andb_true_iff in Hall as [Hc Hs]. rewrite (IH Hs).
    unfold not_space_at in Hc. apply negb_true_iff, orb_false_iff in Hc as [Hc _].
    unfold not_space. by rewrite Hc.
  - destruct s; [done|]. simpl. lia.
Qed.

(** X10: a value that passes [isValidEmail] is a string, or an array or
    object (never [undefined], [null], a boolean or a number), and its
    string conversion has exactly one [@], no white space and at least five
    characters. *)
Theorem isValidEmail_accepts_only (v : jsval) :
  isValidEmail v = true →
  ((∃ e, v = JStr e) ∨ (∃ s, v = JObject s))
  ∧ count_char "@" (ToString v) = 1
  ∧ all_chars not_space (ToString v) = true
  ∧ 5 ≤ String.length (ToString v).
Proof.
  intros Hv.
  assert (isValidEmail (JStr (ToString v)) = true) as Hs by exact Hv.
  split.
  { destruct (isValidEmail_cases v Hv) as [[e ->]|(s & -> & _)]; [left|right]; by eexists. }
  apply isValidEmail_shape in Hs as (a & b & c & -> & Ha & Hb & Hc).
  apply atom_facts in Ha as (Ha1 & Ha2 & Ha3), Hb as (Hb1 & Hb2 & Hb3),
    Hc as (Hc1 & Hc2 & Hc3).
  rewrite !count_char_app, !all_chars_app, !length_append, Ha1, Hb1, Hc1, Ha2, Hb2, Hc2.
  split; [done|]. split; [done|]. simpl. lia.
Qed.

Lemma isValidEmail_accepts_only_witness :
  ((∃ e, JStr "ann@example.com" = JStr e) ∨ (∃ s, JStr "ann@example.com" = JObject s))
  ∧ count_char "@" "ann@example.com" = 1
  ∧ all_chars not_space "ann@example.com" = true
  ∧ 5 ≤ String.length "ann@example.com".
Proof. apply (isValidEmail_accepts_only (JStr "ann@example.com")). reflexivity. Defined.

(** ** The admin gate, continued *)

(** X11: a PUT, a DELETE or a verify request whose [x-admin-token] header is
    missing, empty or different from the configured token is answered 401
    and does nothing: no statement is sent and the database is unchanged. *)
Theorem unauthorized_rejected
    (env token : option string) (feedbackId : number)
    (title description status : jsval) (w : world) :
  ¬ authorized env token →
  put_api_feedback_id env token feedbackId title description status w
  = (mk_response 401 (Error "Unauthorized"), w)
  ∧ delete_api_feedback_id env token feedbackId w
    = (mk_response 401 (Error "Unauthorized"), w)
  ∧ get_api_admin_verify env token w = (mk_response 401 (Error "Unauthorized"), w).
Proof.
  intros Hno. unfold put_api_feedback_id, delete_api_feedback_id, get_api_admin_verify.
  by rewrite !requireAdmin_unauthorized.
Qed.

Lemma unauthorized_rejected_witness :
  put_api_feedback_id None (Some "guess") (Num 1) (JStr "x") JUndefined JUndefined one_item
  = (mk_response 401 (Error "Unauthorized"), one_item)
  ∧ delete_api_feedback_id None (Some "guess") (Num 1) one_item
    = (mk_response 401 (Error "Unauthorized"), one_item)
  ∧ get_api_admin_verify None (Some "guess") one_item
    = (mk_response 401 (Error "Unauthorized"), one_item).
Proof.
  apply (unauthorized_rejected None (Some "guess") (Num 1) (JStr "x") JUndefined JUndefined
           one_item).
  unfold authorized. discriminate.
Defined.

(** X12: the verify route answers 200 exactly for the configured token and
    401 otherwise, and never touches the database; a missing or empty header
    never passes, whatever the configuration, and with [ADMIN_TOKEN] unset
    or empty the token that passes is [changeme]. *)
Theorem verify_decides_token (env token : option string) (w : world) :
  (get_api_admin_verify env token w = (mk_response 200 OkTrue, w)
   ∧ token = Some (ADMIN_TOKEN env)
   ∨ get_api_admin_verify env token w = (mk_response 401 (Error "Unauthorized"), w)
     ∧ token ≠ Some (ADMIN_TOKEN env))
  ∧ ADMIN_TOKEN env ≠ ""%string
  ∧ (env = None ∨ env = Some ""%string → ADMIN_TOKEN env = "changeme"%string).
Proof.
  split; [|split].
  - unfold get_api_admin_verify.
    destruct (decide (token = Some (ADMIN_TOKEN env))) as [Heq|Hne].
    + left. by rewrite requireAdmin_authorized.
    + right. by rewrite requireAdmin_unauthorized.
  - intros H. pose proof (ADMIN_TOKEN_nonempty env) as Hn. rewrite H in Hn. discriminate.
  - by intros [-> | ->].
Qed.

(** ** Selecting the order of the listing *)

(** X13: [sortBy] is compared without regard to case, and every value other
    than [newest], the empty string included, selects the order by
    upvotes. *)
Theorem sortBy_selects_order (s : string) (w : world) :
  if String.eqb (to_lower s) "newest"
  then lists_sorted (Some s) CreatedDesc created_desc w
  else lists_sorted (Some s) UpvotesDescCreatedDesc upvotes_desc_created_desc w.
Proof.
  destruct (String.eqb (to_lower s) "newest") eqn:Hs.
  - apply (get_api_feedback_order CreatedDesc created_desc); [|done].
    destruct (String.eqb_spec s ""); [by subst|done].
  - apply (get_api_feedback_order UpvotesDescCreatedDesc upvotes_desc_created_desc);
      [|done].
    destruct (String.eqb_spec s ""); done.
Qed.

(** ** Requests that fail validation *)

(** X14: on every route that takes an id, an id that is not a number or is 0
    is answered 400 before anything else happens: no statement is sent and
    the database is unchanged. *)
Theorem invalid_id_rejected
    (env token : option string) (now : Z) (feedbackId : number)
    (title description status user_email comment_text : jsval) (w : world) :
  authorized env token → valid_id feedbackId = None →
  put_api_feedback_id env token feedbackId title description status w
  = (mk_response 400 (Error "Valid feedback id is required"), w)
  ∧ delete_api_feedback_id env token feedbackId w
    = (mk_response 400 (Error "Valid feedback id is required"), w)
  ∧ post_api_feedback_id_upvote feedbackId user_email w
    = (mk_response 400 (Error "feedback id and user_email are required"), w)
  ∧ post_api_feedback_id_comments now feedbackId user_email comment_text w
    = (mk_response 400 (Error "feedback id, user_email, and comment_text are required"), w)
  ∧ get_api_feedback_id_comments feedbackId w
    = (mk_response 400 (Error "feedback id is required"), w).
Proof.
  intros Hauth Hid.
  unfold put_api_feedback_id, delete_api_feedback_id.
  rewrite !requireAdmin_authorized by done.
  unfold put_feedback, delete_feedback, post_api_feedback_id_upvote,
    post_api_feedback_id_comments, get_api_feedback_id_comments.
  by rewrite Hid.
Qed.

Lemma invalid_id_rejected_witness :
  put_api_feedback_id None (Some "changeme") NaN (JStr "x") JUndefined JUndefined one_item
  = (mk_response 400 (Error "Valid feedback id is required"), one_item)
  ∧ delete_api_feedback_id None (Some "changeme") NaN one_item
    = (mk_response 400 (Error "Valid feedback id is required"), one_item)
  ∧ post_api_feedback_id_upvote NaN (JStr "ann@example.com") one_item
    = (mk_response 400 (Error "feedback id and user_email are required"), one_item)
  ∧ post_api_feedback_id_comments 9 NaN (JStr "ann@example.com") (JStr "hi") one_item
    = (mk_response 400 (Error "feedback id, user_email, and comment_text are required"),
       one_item)
  ∧ get_api_feedback_id_comments NaN one_item
    = (mk_response 400 (Error "feedback id is required"), one_item).
Proof.
  apply (invalid_id_rejected None (Some "changeme") 9 NaN (JStr "x") JUndefined JUndefined
           (JStr "ann@example.com") (JStr "hi") one_item); reflexivity.
Defined.





(** ** Updates that do not go through *)

Lemma db_eta (d : db) :
  mk_db (feedback d) (upvotes d) (comments d)
    (seq_feedback d) (seq_upvotes d) (seq_comments d) = d.
Proof. by destruct d. Qed.

Lemma filter_all {A} (P : A → Prop) `{!∀ x, Decision (P x)} (l : list A) :
  Forall P l → filter P l = l.
Proof.
  induction 1 as [|a l Ha _ IH]; [done|]. rewrite filter_cons_True by done. by rewrite IH.
Qed.

Lemma filter_none {A} (P : A → Prop) `{!∀ x, Decision (P x)} (l : list A) :
  Forall (λ x, ¬ P x) l → filter P l = [].
Proof.
  induction 1 as [|a l Ha _ IH]; [done|]. by rewrite filter_cons_False by done.
Qed.

Lemma filter_nil_none {A} (P : A → Prop) `{!∀ x, Decision (P x)} (l : list A) :
  head (filter P l) = None → Forall (λ x, ¬ P x) l.
Proof.
  induction l as [|a l IH]; [constructor|]. rewrite filter_cons.
  destruct (decide (P a)); [discriminate|]. intros Hnone. constructor; [done|by apply IH].
Qed.

Lemma update_rows_no_row (sets : list (column * sqlval)) (z : Z) (rows : list Feedback.row) :
  Forall (λ r, Feedback.id r ≠ z) rows → update_rows sets z rows = Ok (rows, 0).
Proof.
  induction 1 as [|r rows Hr _ IH]; [done|]. cbn [update_rows].
  rewrite decide_False by done. by rewrite IH.
Qed.

Lemma update_rows_fails (sets : list (column * sqlval)) (z : Z) (rows : list Feedback.row) :
  (∀ r, ∃ e, set_columns sets r = Err e) →
  Exists (λ r, Feedback.id r = z) rows →
  ∃ e, update_rows sets z rows = Err e.
Proof.
  intros Hset. induction 1 as [r rows Hr|r rows _ [e IH]]; cbn [update_rows].
  - rewrite decide_True by done. destruct (Hset r) as [e ->]. by eexists.
  - destruct (decide (Feedback.id r = z)).
    + destruct (Hset r) as [e' ->]. by eexists.
    + rewrite IH. by eexists.
Qed.

Lemma set_columns_null (title description status : jsval) (r : Feedback.row) :
  title = JNull ∨ description = JNull →
  ∃ e, set_columns (put_fields title description status) r = Err e.
Proof.
  intros [-> | ->]; unfold put_fields.
  - simpl. by eexists.
  - destruct title, status; simpl; by eexists.
Qed.

(** X17: an authorized PUT with an acceptable body whose id has no item sends
    the UPDATE, which changes no row, and the SELECT, and is then answered
    500 (not 404); the database is unchanged. *)
Theorem put_missing_item
    (env token : option string) (feedbackId : number) (z : Z)
    (title description status : jsval) (w : world) :
  authorized env token → valid_id feedbackId = Some z →
  defined status && negb (Set_has ALLOWED_STATUSES status) = false →
  defined title || defined description || defined status = true →
  Forall (λ r, Feedback.id r ≠ z) (feedback (store w)) →
  put_api_feedback_id env token feedbackId title description status w
  = (mk_response 500 (Error "Failed to retrieve updated feedback"),
     mk_world (store w)
       (trace w ++ [UpdateFeedback (put_fields title description status) z;
                    SelectFeedbackById z])).
Proof.
  intros Hauth Hid Hst Hany Hno. unfold put_api_feedback_id.
  rewrite requireAdmin_authorized, put_feedback_run, Hid, Hst, Hany by done.
  cbn [negb]. cbv zeta. rewrite update_rows_no_row by done.
  rewrite filter_none by (eapply Forall_impl; [exact Hno|]; by intros r Hr).
  cbn [head]. by rewrite db_eta.
Qed.

Lemma put_missing_item_witness :
  put_api_feedback_id None (Some "changeme") (Num 9) JUndefined JUndefined (JStr "Planned")
    one_item
  = (mk_response 500 (Error "Failed to retrieve updated feedback"),
     mk_world (store one_item)
       [UpdateFeedback [(ColStatus, SText "Planned")] 9; SelectFeedbackById 9]).
Proof.
  apply (put_missing_item None (Some "changeme") (Num 9) 9 JUndefined JUndefined
           (JStr "Planned") one_item); try reflexivity.
  repeat constructor. discriminate.
Defined.

(** X18: an authorized PUT that supplies [null] as title or description for an
    item that exists fails on the NOT NULL constraint: it is answered 500 and
    no field is changed, not even the other fields it supplies. *)
Theorem put_null_rejected
    (env token : option string) (feedbackId : number) (z : Z)
    (title description status : jsval) (w : world) :
  authorized env token → valid_id feedbackId = Some z →
  defined status && negb (Set_has ALLOWED_STATUSES status) = false →
  title = JNull ∨ description = JNull →
  Exists (λ r, Feedback.id r = z) (feedback (store w)) →
  put_api_feedback_id env token feedbackId title description status w
  = (mk_response 500 (Error "Failed to update feedback"),
     mk_world (store w)
       (trace w ++ [UpdateFeedback (put_fields title description status) z])).
Proof.
  intros Hauth Hid Hst Hnull Hex. unfold put_api_feedback_id.
  rewrite requireAdmin_authorized, put_feedback_run, Hid, Hst by done.
  assert (defined title || defined description || defined status = true) as ->.
  { destruct Hnull as [-> | ->]; [done|]. cbn. apply orb_true_iff. left. apply orb_true_r. }
  cbn [negb]. cbv zeta.
  destruct (update_rows_fails (put_fields title description status) z
              (feedback (store w))) as [e ->]; [|done..].
  intros r. by apply set_columns_null.
Qed.

Lemma put_null_rejected_witness :
  put_api_feedback_id None (Some "changeme") (Num 1) JNull JUndefined (JStr "Planned")
    one_item
  = (mk_response 500 (Error "Failed to update feedback"),
     mk_world (store one_item)
       [UpdateFeedback [(ColTitle, SNull); (ColStatus, SText "Planned")] 1]).
Proof.
  apply (put_null_rejected None (Some "changeme") (Num 1) 1 JNull JUndefined
           (JStr "Planned") one_item); try reflexivity.
  - by left.
  - by constructor.
Defined.

Lemma patched_idem (title description status : jsval) (r : Feedback.row) :
  patched title description status (patched title description status r)
  = patched title description status r.
Proof.
  unfold patched, patch_text, patch_status. cbn. f_equal.
  - destruct (defined title); [|done]. by destruct (text_affinity (bind title)).
  - destruct (defined description); [|done]. by destruct (text_affinity (bind description)).
  - by destruct (defined status).
Qed.

Lemma patched_table_idem (z : Z) (title description status : jsval)
    (rows : list Feedback.row) :
  patched_table z title description status (patched_table z title description status rows)
  = patched_table z title description status rows.
Proof.
  unfold patched_table. rewrite <- list_fmap_compose. apply list_fmap_ext.
  intros _ r _. unfold compose. destruct (decide (Feedback.id r = z)) as [Heq|Hne].
  - rewrite decide_True by done. apply patched_idem.
  - by rewrite decide_False by done.
Qed.

(** X19: PUT is idempotent: repeating an accepted update gives the same answer
    and leaves the database as the first one left it. *)
Theorem put_idempotent
    (env token : option string) (feedbackId : number) (z : Z)
    (title description status : jsval) (r0 : Feedback.row) (w : world) :
  authorized env token → valid_id feedbackId = Some z →
  defined status && negb (Set_has ALLOWED_STATUSES status) = false →
  defined title || defined description || defined status = true →
  title ≠ JNull → description ≠ JNull →
  head (filter (λ r, Feedback.id r = z) (feedback (store w))) = Some r0 →
  let first := put_api_feedback_id env token feedbackId title description status w in
  let second :=
    put_api_feedback_id env token feedbackId title description status first.2 in
  first.1 = mk_response 200 (FeedbackRow (patched title description status r0))
  ∧ second.1 = first.1
  ∧ store second.2 = store first.2.
Proof.
  intros Hauth Hid Hst Hany Ht Hd Hr0 first second. subst first second.
  unfold put_api_feedback_id. rewrite !requireAdmin_authorized by done.
  rewrite (put_feedback_accepted feedbackId z title description status r0 w) by done.
  cbn [fst snd].
  rewrite (put_feedback_accepted feedbackId z title description status
             (patched title description status r0)); try done.
  - cbn [fst snd store feedback upvotes comments seq_feedback seq_upvotes seq_comments].
    by rewrite patched_idem, patched_table_idem.
  - cbn [store feedback]. by rewrite head_filter_patched, Hr0.
Qed.

Lemma put_idempotent_witness :
  let first :=
    put_api_feedback_id None (Some "changeme") (Num 1) (JStr "Night mode") JUndefined
      (JStr "Planned") one_item in
  let second :=
    put_api_feedback_id None (Some "changeme") (Num 1) (JStr "Night mode") JUndefined
      (JStr "Planned") first.2 in
  first.1
  = mk_response 200
      (FeedbackRow (Feedback.mk 1 "Night mode" "Please add it" "ann@example.com" 5
                      (Some "Planned")))
  ∧ second.1 = first.1
  ∧ store second.2 = store first.2.
Proof.
  apply (put_idempotent None (Some "changeme") (Num 1) 1 (JStr "Night mode") JUndefined
           (JStr "Planned")
           (Feedback.mk 1 "Dark mode" "Please add it" "ann@example.com" 5 (Some "Open"))
           one_item); try reflexivity; discriminate.
Defined.

(** ** Error answers have no effect *)

Lemma post_api_feedback_error (now : Z) (title description user_email : jsval) (w : world) :
  400 ≤ status_code (post_api_feedback now title description user_email w).1 →
  store (post_api_feedback now title description user_email w).2 = store w.
Proof.
  unfold post_api_feedback.
  destruct (truthy title); [|done]. destruct (truthy description); [|done].
  destruct (truthy user_email); [|done]. destruct (isValidEmail user_email); [|done].
  run_handler. unfold insert_feedback, select_feedback_by_id.
  destruct (text_affinity (bind title)); [|done].
  destruct (text_affinity (bind description)); [|done].
  destruct (text_affinity (bind user_email)); [|done].
  cbn. lia.
Qed.

Lemma put_feedback_error (feedbackId : number) (title description status : jsval) (w : world) :
  400 ≤ status_code (put_feedback feedbackId title description status w).1 →
  store (put_feedback feedbackId title description status w).2 = store w.
Proof.
  rewrite put_feedback_run.
  destruct (valid_id feedbackId) as [z|]; [|done].
  destruct (defined status && negb (Set_has ALLOWED_STATUSES status)); [done|].
  destruct (negb (defined title || defined description || defined status)); [done|].
  cbv zeta.
  destruct (update_rows _ z (feedback (store w))) as [err|[rows n]] eqn:Hup; [done|].
  apply update_rows_patched in Hup as ->. cbn [fst snd store].
  rewrite head_filter_patched.
  destruct (head (filter (λ r, Feedback.id r = z) (feedback (store w))))
    as [r0|] eqn:Hhead; cbn; [lia|].
  intros _. apply filter_nil_none in Hhead.
  assert (patched_table z title description status (feedback (store w))
          = feedback (store w)) as ->; [|apply db_eta].
  unfold patched_table. rewrite <- (list_fmap_id (feedback (store w))) at 2.
  apply Forall_fmap_ext. eapply Forall_impl; [exact Hhead|].
  intros r Hr. by rewrite decide_False.
Qed.

Lemma upvote_error (feedbackId : number) (user_email : jsval) (w : world) :
  400 ≤ status_code (post_api_feedback_id_upvote feedbackId user_email w).1 →
  store (post_api_feedback_id_upvote feedbackId user_email w).2 = store w.
Proof.
  unfold post_api_feedback_id_upvote. destruct (valid_id feedbackId) as [z|]; [|done].
  destruct (truthy user_email); [|done]. destruct (isValidEmail user_email); [|done].
  run_handler. unfold insert_upvote, count_upvotes_of.
  destruct (text_affinity (bind user_email)) as [e|]; [|done].
  destruct (decide _).
  - cbn [message]. by destruct (includes _ _).
  - cbn. lia.
Qed.

Lemma comment_error (now : Z) (feedbackId : number) (user_email comment_text : jsval)
    (w : world) :
  400 ≤ status_code
          (post_api_feedback_id_comments now feedbackId user_email comment_text w).1 →
  store (post_api_feedback_id_comments now feedbackId user_email comment_text w).2
  = store w.
Proof.
  unfold post_api_feedback_id_comments. destruct (valid_id feedbackId) as [z|]; [|done].
  destruct (truthy user_email); [|done]. destruct (truthy comment_text); [|done].
  destruct (isValidEmail user_email); [|done].
  run_handler. unfold insert_comment, select_comment_by_id.
  destruct (text_affinity (bind user_email)) as [e|]; [|done].
  destruct (text_affinity (bind comment_text)) as [t|]; [|done].
  cbn. lia.
Qed.

Lemma delete_feedback_error (feedbackId : number) (w : world) :
  400 ≤ status_code (delete_feedback feedbackId w).1 →
  feedback (store (delete_feedback feedbackId w).2) = feedback (store w).
Proof.
  unfold delete_feedback. destruct (valid_id feedbackId) as [z|]; [|done].
  run_handler. unfold delete_upvotes_of, delete_comments_of, delete_feedback_by_id.
  cbn [store feedback upvotes comments seq_feedback seq_upvotes seq_comments].
  destruct (Nat.eqb_spec
              (length (feedback (store w))
               - length (filter (λ r, Feedback.id r ≠ z) (feedback (store w)))) 0)
    as [E|_]; cbn; [|lia].
  intros _. apply filter_all. apply Forall_forall. intros r Hr Heq.
  revert E. apply length_filter_some. apply Exists_exists. exists r. split; [done|].
  intros Hne. by apply Hne.
Qed.

(** X20: a request that is answered with an error status (400 or above) leaves
    the database as it was.  The one exception is DELETE answered 404, which
    has still removed the upvotes and comments that referenced the id; it
    leaves the [feedback] table as it was. *)
Theorem errors_change_nothing (env : option string) (now : Z) (req : request) (w : world) :
  400 ≤ status_code (handle env now req w).1 →
  feedback (store (handle env now req w).2) = feedback (store w)
  ∧ ((∀ token id, req ≠ DELETE_feedback_id token id) →
     store (handle env now req w).2 = store w).
Proof.
  destruct req as [sortBy|t d e|tok id t d s|tok|tok id|id e|id e t|id]; cbn [handle];
    intros Herr.
  - unfold get_api_feedback. by run_handler.
  - by rewrite post_api_feedback_error.
  - unfold put_api_feedback_id in *.
    destruct (requireAdmin_cases env tok (put_feedback id t d s) w) as [E|E];
      rewrite E in *; [done|]. by rewrite put_feedback_error.
  - unfold get_api_admin_verify in *.
    by destruct (requireAdmin_cases env tok (respond 200 OkTrue) w) as [->| ->].
  - unfold delete_api_feedback_id in *.
    destruct (requireAdmin_cases env tok (delete_feedback id) w) as [E|E];
      rewrite E in *; [split; [done|]; intros H; by destruct (H tok id)|].
    split; [by apply delete_feedback_error|]. intros H. by destruct (H tok id).
  - by rewrite upvote_error.
  - by rewrite comment_error.
  - unfold get_api_feedback_id_comments. destruct (valid_id id); by run_handler.
Qed.

Lemma errors_change_nothing_witness :
  let req := POST_feedback_id_upvote (Num 1) (JStr "bob@example.com") in
  let w := serve None [(6%Z, req)] one_item in
  status_code (handle None 7 req w).1 = 409
  ∧ feedback (store (handle None 7 req w).2) = feedback (store w)
  ∧ store (handle None 7 req w).2 = store w.
Proof.
  intros req w. split; [reflexivity|].
  destruct (errors_change_nothing None 7 req w) as [Hf Hs].
  - change (400 ≤ 409). lia.
  - split; [exact Hf|]. apply Hs. intros token id. discriminate.
Defined.

(** ** How requests compose *)

(** The DELETE handler, run. *)
Lemma delete_feedback_run (feedbackId : number) (z : Z) (w : world) :
  valid_id feedbackId = Some z →
  let d := store w in
  delete_feedback feedbackId w
  = (if decide (Exists (λ r, Feedback.id r = z) (feedback d))
     then mk_response 200 OkTrue
     else mk_response 404 (Error "Feedback not found"),
     mk_world
       (mk_db (filter (λ r, Feedback.id r ≠ z) (feedback d))
          (filter (λ r, Upvote.feedback_id r ≠ z) (upvotes d))
          (filter (λ r, Comment.feedback_id r ≠ z) (comments d))
          (seq_feedback d) (seq_upvotes d) (seq_comments d))
       (trace w ++ [DeleteUpvotesOf z; DeleteCommentsOf z; DeleteFeedbackById z])).
Proof.
  intros Hid d. unfold delete_feedback. rewrite Hid. run_handler.
  unfold delete_upvotes_of, delete_comments_of, delete_feedback_by_id.
  cbn [store trace feedback upvotes comments seq_feedback seq_upvotes seq_comments].
  rewrite <- !app_assoc. cbn [app].
  destruct (decide (Exists (λ r, Feedback.id r = z) (feedback d))) as [Hex|Hno].
  - destruct (Nat.eqb_spec
                (length (feedback (store w))
                 - length (filter (λ r, Feedback.id r ≠ z) (feedback (store w)))) 0)
      as [E|_]; [|done].
    exfalso. revert E. apply length_filter_some.
    eapply Exists_impl; [exact Hex|]. intros r Hr Hne. by apply Hne.
  - rewrite length_filter_all; [done|].
    apply Forall_forall. intros r Hr Heq. apply Hno, Exists_exists. eauto.
Qed.

Lemma filter_filter_same {A} (P : A → Prop) `{!∀ x, Decision (P x)} (l : list A) :
  filter P (filter P l) = filter P l.
Proof.
  apply filter_all. apply Forall_forall. by intros x [? _]%list_elem_of_filter.
Qed.

Lemma filter_neg_none {A} (key : A → Z) (z : Z) (l : list A) :
  filter (λ r, key r = z) (filter (λ r, key r ≠ z) l) = [].
Proof.
  apply filter_none. apply Forall_forall. by intros x [? _]%list_elem_of_filter.
Qed.

(** X21: after an authorized DELETE of an id, nothing references the id any
    more: its comment listing is the empty list, answered 200, no item has
    the id and no upvote counts for it; and a second DELETE of the same id is
    answered 404 and leaves the database unchanged. *)
Theorem delete_then (env token : option string) (feedbackId : number) (z : Z) (w : world) :
  authorized env token → valid_id feedbackId = Some z →
  let w1 := (delete_api_feedback_id env token feedbackId w).2 in
  (get_api_feedback_id_comments feedbackId w1).1 = mk_response 200 (CommentList [])
  ∧ Forall (λ r, Feedback.id r ≠ z) (feedback (store w1))
  ∧ upvotes_of (store w1) z = 0
  ∧ (delete_api_feedback_id env token feedbackId w1).1
    = mk_response 404 (Error "Feedback not found")
  ∧ store (delete_api_feedback_id env token feedbackId w1).2 = store w1.
Proof.
  intros Hauth Hid w1. subst w1. unfold delete_api_feedback_id.
  rewrite !requireAdmin_authorized by done.
  rewrite (delete_feedback_run feedbackId z w Hid). cbn [snd].
  split; [|split; [|split; [|split]]].
  - unfold get_api_feedback_id_comments. rewrite Hid. run_handler.
    unfold select_comments_of. cbn [store comments fst].
    by rewrite (filter_neg_none Comment.feedback_id).
  - cbn [store feedback]. apply Forall_forall. by intros r [? _]%list_elem_of_filter.
  - unfold upvotes_of. cbn [store upvotes].
    by rewrite (filter_neg_none Upvote.feedback_id).
  - rewrite (delete_feedback_run feedbackId z _ Hid). cbn [fst store feedback].
    rewrite decide_False; [done|].
    intros (r & [Hne _]%list_elem_of_filter & Heq)%Exists_exists. by apply Hne.
  - rewrite (delete_feedback_run feedbackId z _ Hid).
    cbn [snd store feedback upvotes comments seq_feedback seq_upvotes seq_comments].
    by rewrite !filter_filter_same.
Qed.

Lemma delete_then_witness :
  let w1 := (delete_api_feedback_id None (Some "changeme") (Num 1) one_item).2 in
  (get_api_feedback_id_comments (Num 1) w1).1 = mk_response 200 (CommentList [])
  ∧ Forall (λ r, Feedback.id r ≠ 1%Z) (feedback (store w1))
  ∧ upvotes_of (store w1) 1 = 0
  ∧ (delete_api_feedback_id None (Some "changeme") (Num 1) w1).1
    = mk_response 404 (Error "Feedback not found")
  ∧ store (delete_api_feedback_id None (Some "changeme") (Num 1) w1).2 = store w1.
Proof.
  apply (delete_then None (Some "changeme") (Num 1) 1 one_item); reflexivity.
Defined.

(** The listing, for any [sortBy]: every item with its counts, in some
    order; the database is only read. *)
Lemma get_api_feedback_rows (sortBy : option string) (w : world) :
  ∃ rows,
    (get_api_feedback sortBy w).1 = mk_response 200 (FeedbackList rows)
    ∧ rows ≡ₚ counted (store w) <$> feedback (store w)
    ∧ store (get_api_feedback sortBy w).2 = store w.
Proof.
  unfold get_api_feedback. run_handler. unfold select_feedback_joined.
  eexists. split; [done|]. split; [|done].
  rewrite <- joined_counted.
  destruct (String.eqb _ "newest"); apply merge_sort_Permutation.
Qed.

Lemma counted_comment (d : db) (c : Comment.row) (f : Feedback.row) (seq : Z) :
  counted
    (mk_db (feedback d) (upvotes d) (comments d ++ [c])
       (seq_feedback d) (seq_upvotes d) seq) f
  = bump_comments (Comment.feedback_id c) (counted d f).
Proof.
  unfold counted, bump_comments, upvotes_of, comments_of. cbn [upvotes comments item].
  rewrite filter_app, length_app.
  destruct (decide (Feedback.id f = Comment.feedback_id c)) as [Heq|Hne].
  - rewrite filter_cons_True by done. cbn. f_equal. lia.
  - rewrite filter_cons_False by done. cbn. f_equal. lia.
Qed.

Lemma counted_upvote (d : db) (u : Upvote.row) (f : Feedback.row) (seq : Z) :
  counted
    (mk_db (feedback d) (upvotes d ++ [u]) (comments d)
       (seq_feedback d) seq (seq_comments d)) f
  = bump_upvotes (Upvote.feedback_id u) (counted d f).
Proof.
  unfold counted, bump_upvotes, upvotes_of, comments_of. cbn [upvotes comments item].
  rewrite filter_app, length_app.
  destruct (decide (Feedback.id f = Upvote.feedback_id u)) as [Heq|Hne].
  - rewrite filter_cons_True by done. cbn. f_equal. lia.
  - rewrite filter_cons_False by done. cbn. f_equal. lia.
Qed.

(** X22: an accepted comment raises the comment count of the items with that
    id by exactly one in the next listing and changes no other count: the
    listing after it is, up to order, the listing before it with that one
    count raised. *)
Theorem comment_raises_count
    (sortBy : option string) (now : Z) (feedbackId : number) (z : Z)
    (user_email : jsval) (t : string) (w : world) :
  valid_id feedbackId = Some z → isValidEmail user_email = true → t ≠ ""%string →
  let w' := (post_api_feedback_id_comments now feedbackId user_email (JStr t) w).2 in
  ∃ rows rows',
    (get_api_feedback sortBy w).1 = mk_response 200 (FeedbackList rows)
    ∧ (get_api_feedback sortBy w').1 = mk_response 200 (FeedbackList rows')
    ∧ rows' ≡ₚ bump_comments z <$> rows.
Proof.
  intros Hid He Ht w'. subst w'.
  rewrite (comment_new now feedbackId z user_email (JStr t) w)
    by (done || by apply truthy_JStr).
  cbn [snd].
  destruct (get_api_feedback_rows sortBy w) as (rows & -> & Hrows & _).
  match goal with |- context [get_api_feedback sortBy ?w1] =>
    destruct (get_api_feedback_rows sortBy w1) as (rows' & -> & Hrows' & _) end.
  exists rows, rows'. split; [done|]. split; [done|].
  rewrite Hrows', Hrows. cbn [store feedback]. rewrite <- list_fmap_compose.
  apply reflexive_eq, list_fmap_ext. intros _ f _. apply counted_comment.
Qed.

Lemma comment_raises_count_witness :
  let w' :=
    (post_api_feedback_id_comments 9 (Num 1) (JStr "bob@example.com") (JStr "hi")
       one_item).2 in
  ∃ rows rows',
    (get_api_feedback None one_item).1 = mk_response 200 (FeedbackList rows)
    ∧ (get_api_feedback None w').1 = mk_response 200 (FeedbackList rows')
    ∧ rows' ≡ₚ bump_comments 1 <$> rows.
Proof.
  apply (comment_raises_count None 9 (Num 1) 1 (JStr "bob@example.com") "hi" one_item);
    [reflexivity|reflexivity|discriminate].
Defined.

(** X23: an accepted upvote raises the upvote count of the items with that id
    by exactly one in the next listing and changes no other count. *)
Theorem upvote_raises_count
    (sortBy : option string) (feedbackId : number) (z : Z)
    (user_email : jsval) (w : world) :
  valid_id feedbackId = Some z → isValidEmail user_email = true →
  ¬ Exists (same_vote z (stored_text user_email)) (upvotes (store w)) →
  let w' := (post_api_feedback_id_upvote feedbackId user_email w).2 in
  ∃ rows rows',
    (get_api_feedback sortBy w).1 = mk_response 200 (FeedbackList rows)
    ∧ (get_api_feedback sortBy w').1 = mk_response 200 (FeedbackList rows')
    ∧ rows' ≡ₚ bump_upvotes z <$> rows.
Proof.
  intros Hid He Hnew w'. subst w'.
  rewrite (upvote_new feedbackId z user_email w) by done. cbn [snd].
  destruct (get_api_feedback_rows sortBy w) as (rows & -> & Hrows & _).
  match goal with |- context [get_api_feedback sortBy ?w1] =>
    destruct (get_api_feedback_rows sortBy w1) as (rows' & -> & Hrows' & _) end.
  exists rows, rows'. split; [done|]. split; [done|].
  rewrite Hrows', Hrows. cbn [store feedback]. rewrite <- list_fmap_compose.
  apply reflexive_eq, list_fmap_ext. intros _ f _. apply counted_upvote.
Qed.

Lemma upvote_raises_count_witness :
  let w' := (post_api_feedback_id_upvote (Num 1) (JStr "bob@example.com") one_item).2 in
  ∃ rows rows',
    (get_api_feedback None one_item).1 = mk_response 200 (FeedbackList rows)
    ∧ (get_api_feedback None w').1 = mk_response 200 (FeedbackList rows')
    ∧ rows' ≡ₚ bump_upvotes 1 <$> rows.
Proof.
  apply (upvote_raises_count None (Num 1) 1 (JStr "bob@example.com") one_item);
    [reflexivity|reflexivity|].
  intros H. inversion H.
Defined.

(** An accepted submission, run. *)
Lemma submission_new (now : Z) (t ds : string) (user_email : jsval) (w : world) :
  t ≠ ""%string → ds ≠ ""%string → isValidEmail user_email = true →
  let d := store w in
  let row :=
    Feedback.mk (next_rowid (seq_feedback d) (Feedback.id <$> feedback d))
      t ds (stored_text user_email) now (Some "Open") in
  post_api_feedback now (JStr t) (JStr ds) user_email w
  = (mk_response 201 (CreatedFeedback (Some row) 0 0),
     mk_world
       (mk_db (feedback d ++ [row]) (upvotes d) (comments d)
          (Feedback.id row) (seq_upvotes d) (seq_comments d))
       (trace w ++ [InsertFeedback (SText t) (SText ds) (bind user_email);
                    SelectFeedbackById (Feedback.id row)])).
Proof.
  intros Ht Hd He d row. destruct (isValidEmail_stored _ He) as (Htr & Hb & _).
  unfold post_api_feedback.
  rewrite (truthy_JStr t Ht), (truthy_JStr ds Hd), Htr, He.
  run_handler. unfold insert_feedback, select_feedback_by_id. rewrite Hb. simpl.
  rewrite (head_filter_fresh Feedback.id) by done.
  by rewrite <- app_assoc.
Qed.

(** X24: an accepted submission appears in the next listing, for any [sortBy],
    which has one row more.  Its counts there are the numbers of upvote and
    comment rows that already reference the new id: 0 unless such rows were
    posted before the item existed (the 201 answer says 0 in any case). *)
Theorem created_item_listed
    (sortBy : option string) (now : Z) (t ds : string) (user_email : jsval) (w : world) :
  t ≠ ""%string → ds ≠ ""%string → isValidEmail user_email = true →
  let d := store w in
  let i := next_rowid (seq_feedback d) (Feedback.id <$> feedback d) in
  let row := Feedback.mk i t ds (stored_text user_email) now (Some "Open") in
  let w' := (post_api_feedback now (JStr t) (JStr ds) user_email w).2 in
  ∃ rows,
    (get_api_feedback sortBy w').1 = mk_response 200 (FeedbackList rows)
    ∧ mk_view row (upvotes_of d i) (length (comments_of d i)) ∈ rows
    ∧ length rows = S (length (feedback d)).
Proof.
  intros Ht Hd He d i row w'. subst w'.
  rewrite (submission_new now t ds user_email w) by done. cbn [snd].
  match goal with |- context [get_api_feedback sortBy ?w1] =>
    destruct (get_api_feedback_rows sortBy w1) as (rows & -> & Hrows & _) end.
  exists rows. split; [done|]. cbn [store feedback] in Hrows. split.
  - rewrite Hrows, fmap_app. apply elem_of_app. right. apply list_elem_of_singleton.
    done.
  - rewrite Hrows, length_fmap, length_app. subst d. cbn [length]. lia.
Qed.

Lemma created_item_listed_witness :
  let w' :=
    (post_api_feedback 9 (JStr "Export") (JStr "CSV please") (JStr "bob@example.com")
       one_item).2 in
  ∃ rows,
    (get_api_feedback (Some "newest") w').1 = mk_response 200 (FeedbackList rows)
    ∧ mk_view (Feedback.mk 2 "Export" "CSV please" "bob@example.com" 9 (Some "Open")) 0 0
      ∈ rows
    ∧ length rows = 2.
Proof.
  apply (created_item_listed (Some "newest") 9 "Export" "CSV please"
           (JStr "bob@example.com") one_item); [discriminate|discriminate|reflexivity].
Defined.

(** The counts of the 201 answer and of the listing can differ: an upvote
    posted to id 1 before any item exists is counted for the item created
    next. *)
Example created_with_earlier_upvote :
  let w :=
    serve None
      [(3%Z, POST_feedback_id_upvote (Num 1) (JStr "bob@example.com"));
       (5%Z, POST_feedback (JStr "Dark mode") (JStr "Please add it")
               (JStr "ann@example.com"))]
      initial in
  (get_api_feedback None w).1
  = mk_response 200
      (FeedbackList
         [mk_view (Feedback.mk 1 "Dark mode" "Please add it" "ann@example.com" 5
                     (Some "Open")) 1 0]).
Proof. by vm_compute. Qed.

(** * The client against the server *)

Lemma trim_nonempty (s : string) : Client.trim s ≠ ""%string → s ≠ ""%string.
Proof. intros H ->. by apply H. Qed.

Lemma eqb_false_nonempty (s : string) : String.eqb s "" = false → s ≠ ""%string.
Proof. by intros H%String.eqb_neq. Qed.

(** X25: whatever the submission form lets through, the server accepts: a
    request that [submitFeedback] sends is answered 201 with the created
    item, in every state of the database. *)
Theorem client_submission_accepted
    (title description email : string) (req : request)
    (env : option string) (now : Z) (w : world) :
  Client.submitFeedback title description email = Some req →
  ∃ row,
    (handle env now req w).1 = mk_response 201 (CreatedFeedback (Some row) 0 0)
    ∧ Feedback.title row = title ∧ Feedback.description row = description
    ∧ Feedback.user_email row = email.
Proof.
  unfold Client.submitFeedback.
  destruct (String.eqb (Client.trim title) "") eqn:Ht; [discriminate|].
  destruct (String.eqb (Client.trim description) "") eqn:Hd; [discriminate|].
  destruct (String.eqb (Client.trim email) "") eqn:He; [discriminate|].
  cbn [orb]. destruct (Client.isValidEmail email) eqn:Hv; [|discriminate].
  cbn [negb]. intros [= <-]. cbn [handle].
  rewrite (submission_new now title description (JStr email) w);
    [by eexists|by apply trim_nonempty, eqb_false_nonempty..|done].
Qed.

Lemma client_submission_accepted_witness :
  ∃ row,
    (handle None 9
       (POST_feedback (JStr "Export") (JStr "CSV please") (JStr "bob@example.com"))
       one_item).1
    = mk_response 201 (CreatedFeedback (Some row) 0 0)
    ∧ Feedback.title row = "Export"%string
    ∧ Feedback.description row = "CSV please"%string
    ∧ Feedback.user_email row = "bob@example.com"%string.
Proof.
  apply (client_submission_accepted "Export" "CSV please" "bob@example.com"
           (POST_feedback (JStr "Export") (JStr "CSV please") (JStr "bob@example.com"))
           None 9 one_item).
  reflexivity.
Defined.

Lemma listed_id_valid (env : option string) (w : world) (f : Feedback.row) :
  reachable env (store w) → f ∈ feedback (store w) →
  valid_id (Num (Feedback.id f)) = Some (Feedback.id f).
Proof.
  intros Hr Hf.
  assert (keys_ok (store w)) as ((_ & Hb) & _).
  { revert Hr. apply (reachable_ind keys_ok env); [|apply keys_ok_effect].
    repeat split; constructor. }
  assert (0 < Feedback.id f)%Z as Hpos.
  { apply (proj1 (Forall_forall _ _) Hb (Feedback.id f)). by apply list_elem_of_fmap_2. }
  simpl. destruct (Z.eqb_spec (Feedback.id f) 0); [lia|done].
Qed.

(** X26: for an item of the listing, in any reachable state, the requests that
    the component's [upvote] and [addComment] send are never rejected as
    invalid: the upvote is answered 200, or 409 when the voter has already
    upvoted the item, and the comment is answered 201. *)
Theorem client_vote_and_comment_accepted
    (env : option string) (now : Z) (w : world) (f : Feedback.row) :
  reachable env (store w) → f ∈ feedback (store w) →
  (∀ voter req,
     Client.upvote (Feedback.id f) voter = Some req →
     status_code (handle env now req w).1 = 200
     ∨ status_code (handle env now req w).1 = 409)
  ∧ (∀ commentEmail commentText req,
       Client.addComment (Some (Feedback.id f)) commentEmail commentText = Some req →
       status_code (handle env now req w).1 = 201).
Proof.
  intros Hr Hf. pose proof (listed_id_valid env w f Hr Hf) as Hid. split.
  - intros [v|] req; [|discriminate]. unfold Client.upvote.
    destruct (String.eqb v ""); [discriminate|].
    destruct (Client.isValidEmail v) eqn:Hv; [|discriminate].
    cbn [negb]. intros [= <-]. cbn [handle].
    destruct (decide (Exists (same_vote (Feedback.id f) v) (upvotes (store w)))).
    + right. by rewrite (upvote_again _ (Feedback.id f) (JStr v)).
    + left. by rewrite (upvote_new _ (Feedback.id f) (JStr v)).
  - intros commentEmail commentText req. unfold Client.addComment.
    destruct (String.eqb (Client.trim commentEmail) ""); [discriminate|].
    destruct (String.eqb (Client.trim commentText) "") eqn:Ht; [discriminate|].
    cbn [orb]. destruct (Client.isValidEmail commentEmail) eqn:Hv; [|discriminate].
    cbn [negb]. intros [= <-]. cbn [handle].
    rewrite (comment_new now _ (Feedback.id f) (JStr commentEmail) (JStr commentText));
      [done|done|done|by apply truthy_JStr, trim_nonempty, eqb_false_nonempty].
Qed.

Lemma client_vote_and_comment_accepted_witness :
  let w :=
    serve None [(5%Z, POST_feedback (JStr "Dark mode") (JStr "Please add it")
                        (JStr "ann@example.com"))] initial in
  status_code
    (handle None 9 (POST_feedback_id_upvote (Num 1) (JStr "bob@example.com")) w).1 = 200
  ∧ status_code
      (handle None 9
         (POST_feedback_id_comments (Num 1) (JStr "bob@example.com") (JStr "hi")) w).1
    = 201.
Proof.
  intros w.
  destruct (client_vote_and_comment_accepted None 9 w
              (Feedback.mk 1 "Dark mode" "Please add it" "ann@example.com" 5 (Some "Open")))
    as [Hup Hco].
  - by exists [(5%Z, POST_feedback (JStr "Dark mode") (JStr "Please add it")
                       (JStr "ann@example.com"))].
  - apply list_elem_of_here.
  - split; [reflexivity|].
    apply (Hco "bob@example.com"%string "hi"%string). reflexivity.
Defined.

Lemma insert_stable_last {A} (cmp : A → A → Z) (x : A) (l : list A) :
  Forall (λ y, (cmp y x ≤ 0)%Z) l → Client.insert_stable cmp x l = l ++ [x].
Proof.
  induction 1 as [|y l Hy _ IH]; [done|]. cbn [Client.insert_stable].
  destruct (Z.ltb_spec 0 (cmp y x)); [lia|]. by rewrite IH.
Qed.

Lemma sort_sorted_from {A} (cmp : A → A → Z) (l acc : list A) :
  StronglySorted (λ a b, (cmp a b ≤ 0)%Z) (acc ++ l) →
  foldl (λ acc x, Client.insert_stable cmp x acc) acc l = acc ++ l.
Proof.
  revert acc. induction l as [|x l IH]; intros acc Hs; [by rewrite app_nil_r|].
  cbn [foldl]. rewrite insert_stable_last.
  - rewrite IH; rewrite <- app_assoc; done.
  - apply StronglySorted_app in Hs as (Hcross & _ & _).
    apply Forall_forall. intros y Hy. apply Hcross; [done|apply list_elem_of_here].
Qed.

Lemma StronglySorted_weaken {A} (R S : relation A) (l : list A) :
  (∀ a b, R a b → S a b) → StronglySorted R l → StronglySorted S l.
Proof.
  intros HRS. induction 1 as [|a l _ IH Ha]; constructor; [done|].
  eapply Forall_impl; [exact Ha|]. intros b. apply HRS.
Qed.

(** X27: the first variant of the component sorts the list it received by
    upvote count before showing it; on the server's default listing this
    changes nothing: the items are shown in the order the server sent. *)
Theorem client_sort_keeps_server_order (w : world) :
  ∃ rows,
    (get_api_feedback None w).1 = mk_response 200 (FeedbackList rows)
    ∧ Client.sortedFeedback rows = rows.
Proof.
  destruct (get_api_feedback_order UpvotesDescCreatedDesc upvotes_desc_created_desc
              None w eq_refl eq_refl) as (rows & Hrun & _ & Hsorted).
  exists rows. rewrite Hrun. split; [done|].
  unfold Client.sortedFeedback, Client.sort. apply (sort_sorted_from _ rows []).
  eapply StronglySorted_weaken; [|exact Hsorted].
  intros a b. unfold upvotes_desc_created_desc. lia.
Qed.

(** X28: in every reachable state the badge of every item has the class named
    after the item's status, lower-cased and with its first space replaced by
    a hyphen; the catch-all branch [status-completed] is taken by the items
    whose status is [Completed] only. *)
Theorem badge_matches_status (env : option string) (d : db) :
  reachable env d →
  Forall
    (λ r, ∃ s, Feedback.status r = Some s
               ∧ Client.badge_class (Feedback.status r)
                 = "status-" +:+ Client.replace_first " " "-" (to_lower s)
               ∧ (Client.badge_class (Feedback.status r) = "status-completed"%string
                  → s = "Completed"%string))
    (feedback d).
Proof.
  intros Hr.
  assert (Forall (λ r, ∃ s, Feedback.status r = Some s ∧ s ∈ ALLOWED_STATUSES)
            (feedback d)) as Hst.
  { revert d Hr. apply reachable_ind; [constructor|apply status_allowed_effect]. }
  eapply Forall_impl; [exact Hst|]. intros r (s & -> & Hin). exists s. split; [done|].
  unfold ALLOWED_STATUSES in Hin.
  repeat (apply elem_of_cons in Hin as [->|Hin]); [by vm_compute..|].
  by apply elem_of_nil in Hin.
Qed.

Lemma badge_matches_status_witness :
  Forall
    (λ r, ∃ s, Feedback.status r = Some s
               ∧ Client.badge_class (Feedback.status r)
                 = "status-" +:+ Client.replace_first " " "-" (to_lower s)
               ∧ (Client.badge_class (Feedback.status r) = "status-completed"%string
                  → s = "Completed"%string))
    (feedback
       (store (serve None
                 [(5%Z, POST_feedback (JStr "Dark mode") (JStr "Please add it")
                          (JStr "ann@example.com"));
                  (6%Z, PUT_feedback_id (Some "changeme") (Num 1) JUndefined JUndefined
                          (JStr "In Progress"))]
                 initial))).
Proof. apply (badge_matches_status None). by eexists. Defined.

(** * The first variant of the server against the current one *)

Section MergeSortMap.
Context {A B : Type} (f : A → B) (R : relation A) (S : relation B).
Context `{!RelDecision R, !RelDecision S}.
Hypothesis RS : ∀ a b, R a b ↔ S (f a) (f b).

Lemma list_merge_fmap (l1 l2 : list A) :
  list_merge S (f <$> l1) (f <$> l2) = f <$> list_merge R l1 l2.
Proof.
  revert l2. induction l1 as [|x1 l1 IH1]; intros l2.
  { by rewrite fmap_nil, !list_merge_nil_l. }
  induction l2 as [|x2 l2 IH2].
  { by rewrite fmap_nil, !list_merge_nil_r. }
  rewrite !fmap_cons, !list_merge_cons.
  destruct (decide (R x1 x2)) as [Hr|Hr].
  - rewrite decide_True by by apply RS. rewrite fmap_cons. f_equal.
    rewrite <- IH1. by rewrite fmap_cons.
  - rewrite decide_False by (by intros ?%RS). rewrite fmap_cons. f_equal.
    rewrite <- IH2. by rewrite fmap_cons.
Qed.

Lemma merge_list_to_stack_fmap (st : list (option (list A))) (l : list A) :
  merge_list_to_stack S (stack_map f st) (f <$> l)
  = stack_map f (merge_list_to_stack R st l).
Proof.
  revert l. induction st as [|[l'|] st IH]; intros l; [done| |done].
  change (None :: merge_list_to_stack S (stack_map f st) (list_merge S (f <$> l') (f <$> l))
          = None :: stack_map f (merge_list_to_stack R st (list_merge R l' l))).
  by rewrite list_merge_fmap, IH.
Qed.

Lemma merge_stack_fmap (st : list (option (list A))) :
  merge_stack S (stack_map f st) = f <$> merge_stack R st.
Proof.
  induction st as [|[l'|] st IH]; [done| |done].
  change (list_merge S (f <$> l') (merge_stack S (stack_map f st))
          = f <$> list_merge R l' (merge_stack R st)).
  rewrite IH. apply list_merge_fmap.
Qed.

Lemma merge_sort_aux_fmap (st : list (option (list A))) (l : list A) :
  merge_sort_aux S (stack_map f st) (f <$> l) = f <$> merge_sort_aux R st l.
Proof.
  revert st. induction l as [|x l IH]; intros st; [apply merge_stack_fmap|].
  rewrite fmap_cons. cbn [merge_sort_aux]. rewrite <- IH. f_equal.
  apply (merge_list_to_stack_fmap st [x]).
Qed.

(** Sorting commutes with a map that preserves and reflects the order. *)
Lemma merge_sort_fmap (l : list A) :
  merge_sort S (f <$> l) = f <$> merge_sort R l.
Proof. apply (merge_sort_aux_fmap [] l). Qed.

End MergeSortMap.

Lemma joined_forget (d : db) : V1.joined (forget_db d) = forget_view <$> joined d.
Proof.
  unfold V1.joined, joined, forget_db. cbn [V1.feedback V1.upvotes V1.comments].
  rewrite <- !list_fmap_compose. by apply list_fmap_ext.
Qed.

Lemma head_filter_forget (i : Z) (rows : list Feedback.row) :
  head (filter (λ r, V1.id r = i) (forget_row <$> rows))
  = forget_row <$> head (filter (λ r, Feedback.id r = i) rows).
Proof.
  induction rows as [|r rows IH]; [done|]. rewrite fmap_cons.
  destruct (decide (Feedback.id r = i)) as [Heq|Hne].
  - by rewrite !filter_cons_True by done.
  - by rewrite !filter_cons_False by done.
Qed.

Ltac run_v1 := unfold V1.bindM, V1.exec, V1.respond, V1.ret.

Lemma simulates_onto (w1 : V1.world) : ∃ w, simulates w1 w.
Proof.
  destruct w1 as [[rows ups coms sf su sc] tr].
  exists (mk_world
            (mk_db ((λ r, Feedback.mk (V1.id r) (V1.title r) (V1.description r)
                            (V1.user_email r) (V1.created_at r) (Some "Open")) <$> rows)
               ups coms sf su sc) (upgrade_stmt <$> tr)).
  split; [|done]. unfold forget_db. cbn. f_equal.
  rewrite <- list_fmap_compose. rewrite <- (list_fmap_id rows) at 1.
  apply list_fmap_ext. intros _ r _. by destruct r.
Qed.

Lemma simulates_step (d : db) (tr : list V1.stmt) (s : V1.stmt) :
  simulates (V1.mk_world (forget_db d) (tr ++ [s]))
    (mk_world d ((upgrade_stmt <$> tr) ++ [upgrade_stmt s])).
Proof. split; [done|]. cbn. by rewrite fmap_app. Qed.

(** X29: the current server is compatible with the clients of the first
    variant.  Every state of the first variant is the data of a state of the
    current server without the status column, and on such a pair of states
    each request of the first variant gets from the current server the answer
    the first variant gives, with the status field added to items; the two
    send corresponding statements, the current server reading the status
    column besides in its SELECTs on [feedback], and end in states that are
    again such a pair. *)
Theorem first_variant_simulated
    (env : option string) (now : Z) (req : V1.request) (w1 : V1.world) :
  (∃ w, simulates w1 w)
  ∧ ∀ w, simulates w1 w →
      ∃ r1,
        forget_response (handle env now (upgrade req) w).1 = Some r1
        ∧ (V1.handle now req w1).1 = r1
        ∧ simulates (V1.handle now req w1).2 (handle env now (upgrade req) w).2.
Proof.
  split; [apply simulates_onto|].
  intros [d tr] Hsim. destruct w1 as [d1 tr1]. destruct Hsim as [Hd Htr].
  cbn [V1.store V1.trace store trace] in Hd, Htr. subst d1 tr.
  assert (simulates (V1.mk_world (forget_db d) tr1) (mk_world d (upgrade_stmt <$> tr1)))
    as Hsame by done.
  destruct req as [|t ds e|i e|i e t|i]; cbn [upgrade handle V1.handle].
  - unfold get_api_feedback, V1.get_api_feedback. cbn [to_lower String.eqb].
    run_handler. run_v1. unfold select_feedback_joined, V1.select_feedback_joined.
    cbn [V1.store V1.trace fst snd store trace].
    eexists. split; [done|]. split; [|apply simulates_step].
    cbn [forget_response json status_code order_by]. rewrite joined_forget.
    by rewrite (merge_sort_fmap forget_view upvotes_desc_created_desc
                  V1.upvotes_desc_created_desc).
  - unfold post_api_feedback, V1.post_api_feedback.
    destruct (negb (truthy t) || negb (truthy ds) || negb (truthy e)); [by eexists|].
    destruct (negb (isValidEmail e)); [by eexists|].
    run_handler. run_v1.
    unfold insert_feedback, V1.insert_feedback, select_feedback_by_id,
      V1.select_feedback_by_id.
    cbn [V1.store V1.trace store trace].
    destruct (text_affinity (bind t)) as [t'|];
      [|eexists; split; [done|]; split; [done|apply simulates_step]].
    destruct (text_affinity (bind ds)) as [d'|];
      [|eexists; split; [done|]; split; [done|apply simulates_step]].
    destruct (text_affinity (bind e)) as [e'|];
      [|eexists; split; [done|]; split; [done|apply simulates_step]].
    unfold forget_db.
    cbn [V1.store V1.feedback V1.upvotes V1.comments V1.seq_feedback V1.seq_upvotes
           V1.seq_comments V1.trace fst snd store trace feedback upvotes comments
           seq_feedback seq_upvotes seq_comments status_code json forget_response].
    assert (V1.id <$> (forget_row <$> feedback d) = Feedback.id <$> feedback d) as ->
      by by rewrite <- list_fmap_compose.
    eexists. split; [done|]. split.
    + f_equal. f_equal.
      rewrite <- (head_filter_forget _ (feedback d ++ [_])). by rewrite fmap_app.
    + split; cbn [V1.store V1.trace store trace].
      * unfold forget_db. cbn [feedback upvotes comments seq_feedback seq_upvotes
                                 seq_comments]. by rewrite fmap_app.
      * by rewrite !fmap_app.
  - unfold post_api_feedback_id_upvote, V1.post_api_feedback_id_upvote.
    destruct (valid_id i) as [z|]; [|by eexists].
    destruct (negb (truthy e)); [by eexists|].
    destruct (negb (isValidEmail e)); [by eexists|].
    run_handler. run_v1.
    unfold insert_upvote, V1.insert_upvote, count_upvotes_of, V1.count_upvotes_of.
    cbn [V1.store V1.trace store trace].
    destruct (text_affinity (bind e)) as [e'|];
      [|eexists; split; [done|]; split; [done|apply simulates_step]].
    cbn [forget_db V1.store V1.upvotes store].
    destruct (decide (Exists (same_vote z e') (upvotes d))).
    + cbn [message]. destruct (includes _ _);
        (eexists; split; [done|]; split; [done|apply simulates_step]).
    + eexists. split; [done|]. split; [done|].
      split; [done|]. cbn [V1.trace trace snd]. by rewrite !fmap_app.
  - unfold post_api_feedback_id_comments, V1.post_api_feedback_id_comments.
    destruct (valid_id i) as [z|]; [|by eexists].
    destruct (negb (truthy e) || negb (truthy t)); [by eexists|].
    destruct (negb (isValidEmail e)); [by eexists|].
    run_handler. run_v1.
    unfold insert_comment, V1.insert_comment, select_comment_by_id,
      V1.select_comment_by_id.
    cbn [V1.store V1.trace store trace].
    destruct (text_affinity (bind e)) as [e'|];
      [|eexists; split; [done|]; split; [done|apply simulates_step]].
    destruct (text_affinity (bind t)) as [t'|];
      [|eexists; split; [done|]; split; [done|apply simulates_step]].
    eexists. split; [done|]. split; [done|].
    split; [done|]. cbn [V1.trace trace snd]. by rewrite !fmap_app.
  - unfold get_api_feedback_id_comments, V1.get_api_feedback_id_comments.
    destruct (valid_id i) as [z|]; [|by eexists].
    run_handler. run_v1. cbn [V1.store V1.trace store trace].
    eexists. split; [done|]. split; [done|apply simulates_step].
Qed.

Lemma first_variant_simulated_witness :
  let req := V1.POST_feedback (JStr "Dark mode") (JStr "Please add it") (JStr "ann@example.com") in
  let w1 := V1.mk_world (V1.mk_db [] [] [] 0 0 0) [] in
  simulates w1 initial
  ∧ ∃ r1,
      forget_response (handle None 5 (upgrade req) initial).1 = Some r1
      ∧ (V1.handle 5 req w1).1 = r1
      ∧ simulates (V1.handle 5 req w1).2 (handle None 5 (upgrade req) initial).2.
Proof.
  intros req w1. split; [by split|].
  apply (proj2 (first_variant_simulated None 5 req w1) initial). by split.
Defined.
